(** * PDF_collator: filename validation, range expansion and reconciliation

    A shallow embedding of the matching core of [PDF_collator.py]
    ([name_check], [find_coc], [get_ranges], [backcheck], [aggregator])
    together with the Python string, list, set and dict operations those
    functions rely on, followed by the properties established about them.

    Conventions of the embedding:
    - a Python [str] is a [string] of 8-bit characters (file names that pass
      the checks are plain ASCII);
    - a call that raises is [None] (or the [Raised] outcome of the engine);
    - a Python [set] is a duplicate-free [list]; the order in which Python
      iterates a set is unspecified, so every place where the source
      iterates a set or turns it into a list goes through a parameter
      [set_order] about which only [Permutation] is assumed;
    - a Python [dict] is an association list in insertion order. *)

From Stdlib Require Import List String Ascii Bool Arith ZArith NArith Lia.
From Stdlib Require Import Permutation Sorting.Sorted DecimalString.
From Stdlib Require DecimalPos DecimalZ Finite.
Import ListNotations.

Local Open Scope string_scope.
Local Open Scope list_scope.

(** ** Python string operations *)

Module Py.

(** [s[:-n]]: everything but the last [n] characters (empty when [s] is
    shorter than [n]). *)
Definition drop_last (n : nat) (s : string) : string :=
  substring 0 (String.length s - n) s.

(** [s[:n]] *)
Definition take (n : nat) (s : string) : string := substring 0 n s.

(** [s[-1:]] *)
Definition last_char (s : string) : string :=
  substring (String.length s - 1) 1 s.

(** [s.startswith(p)] *)
Definition startswith (s p : string) : bool := prefix p s.

(** [s.startswith((p1, p2, ...))] *)
Definition startswith_any (s : string) (ps : list string) : bool :=
  existsb (startswith s) ps.

(** [c in s] for a one-character string [c]. *)
Fixpoint contains (c : ascii) (s : string) : bool :=
  match s with
  | EmptyString => false
  | String a s' => Ascii.eqb a c || contains c s'
  end.

(** [s.split(c)] for a one-character separator. *)
Fixpoint split (c : ascii) (s : string) : list string :=
  match s with
  | EmptyString => [EmptyString]
  | String a s' =>
      if Ascii.eqb a c then EmptyString :: split c s'
      else match split c s' with
           | h :: t => String a h :: t
           | [] => [String a EmptyString]
           end
  end.

(** [s.replace(old, '')] for a non-empty [old]: occurrences are found left
    to right and do not overlap.  [skip] counts the characters of the
    occurrence being dropped. *)
Fixpoint replace_skip (old : string) (skip : nat) (s : string) : string :=
  match s with
  | EmptyString => EmptyString
  | String a s' =>
      match skip with
      | S n => replace_skip old n s'
      | O => if prefix old s
             then replace_skip old (String.length old - 1) s'
             else String a (replace_skip old 0 s')
      end
  end.

Definition remove_substring (old s : string) : string := replace_skip old 0 s.

Definition is_digit (c : ascii) : bool :=
  ((48 <=? nat_of_ascii c) && (nat_of_ascii c <=? 57))%nat.

Fixpoint all_digits (s : string) : bool :=
  match s with
  | EmptyString => true
  | String a s' => is_digit a && all_digits s'
  end.

(** [s.isnumeric()] *)
Definition isnumeric (s : string) : bool :=
  match s with
  | EmptyString => false
  | _ => all_digits s
  end.

Definition digit_val (c : ascii) : Z := Z.of_nat (nat_of_ascii c) - 48.

Fixpoint int_acc (acc : Z) (s : string) : Z :=
  match s with
  | EmptyString => acc
  | String a s' => int_acc (acc * 10 + digit_val a) s'
  end.

(** [int(s)]: [None] stands for [ValueError].  A string of decimal digits is
    the only argument the validated names can produce. *)
Definition int (s : string) : option Z :=
  if isnumeric s then Some (int_acc 0 s) else None.

(** [str(x)] *)
Definition str (x : Z) : string := NilZero.string_of_int (Z.to_int x).

(** [list(range(a, b))] *)
Definition range (a b : Z) : list Z :=
  map (fun i => a + Z.of_nat i)%Z (seq 0 (Z.to_nat (b - a))).

(** [x in l] *)
Definition mem (x : string) (l : list string) : bool :=
  existsb (String.eqb x) l.

(** [set(l)]: the elements of [l], each once. *)
Definition set (l : list string) : list string := nodup string_dec l.

(** [a.issubset(b)] and [a.difference(b)] *)
Definition issubset (a b : list string) : bool :=
  forallb (fun x => mem x b) a.

Definition difference (a b : list string) : list string :=
  filter (fun x => negb (mem x b)) a.

(** [l.remove(x)]: drops the first occurrence, [None] is [ValueError]. *)
Fixpoint remove (x : string) (l : list string) : option (list string) :=
  match l with
  | [] => None
  | y :: l' => if String.eqb y x then Some l'
               else option_map (cons y) (remove x l')
  end.

(** [l.sort()] on strings: ascending by code point.  The order is total and
    antisymmetric, so the result does not depend on the algorithm. *)
Fixpoint insert_sorted (x : string) (l : list string) : list string :=
  match l with
  | [] => [x]
  | y :: l' => if String.leb x y then x :: l else y :: insert_sorted x l'
  end.

Definition sort (l : list string) : list string :=
  fold_right insert_sorted [] l.

(** [os.path.join(a, b)] and [os.path.basename(p)] (posixpath). *)
Definition path_join (a b : string) : string :=
  if startswith b "/" then b
  else if (String.eqb a "" || String.eqb (last_char a) "/")%bool then a ++ b
  else a ++ "/" ++ b.

Fixpoint basename (p : string) : string :=
  match p with
  | EmptyString => EmptyString
  | String a p' => if contains "/" p then
                     (if contains "/" p' then basename p' else p')
                   else p
  end.

End Py.

(** ** Regular expressions of the [re] module

    Only the constructs that occur in the source's patterns; matching is by
    backtracking, written with a continuation for the rest of the pattern. *)

Module Re.

Inductive regex : Type :=
| Eps
| Lit (c : ascii)
| Class (p : ascii -> bool)
| Seq (r1 r2 : regex)
| Alt (r1 r2 : regex)
| Opt (r : regex)
| Group (n : nat) (r : regex)
| Backref (n : nat)
| Eol.

(** The text captured by each group that took part in the match. *)
Definition groups := list (nat * string).

Fixpoint group (m : groups) (n : nat) : option string :=
  match m with
  | [] => None
  | (k, v) :: m' => if Nat.eqb k n then Some v else group m' n
  end.

Definition consumed (s rest : string) : string :=
  substring 0 (String.length s - String.length rest) s.

Fixpoint run (r : regex) (s : string) (m : groups)
         (k : string -> groups -> option groups) : option groups :=
  match r with
  | Eps => k s m
  | Lit c =>
      match s with
      | String a s' => if Ascii.eqb a c then k s' m else None
      | EmptyString => None
      end
  | Class p =>
      match s with
      | String a s' => if p a then k s' m else None
      | EmptyString => None
      end
  | Seq r1 r2 => run r1 s m (fun s' m' => run r2 s' m' k)
  | Alt r1 r2 =>
      match run r1 s m k with
      | Some res => Some res
      | None => run r2 s m k
      end
  | Opt r1 =>
      match run r1 s m k with
      | Some res => Some res
      | None => k s m
      end
  | Group n r1 => run r1 s m (fun s' m' => k s' ((n, consumed s s') :: m'))
  | Backref n =>
      match group m n with
      | Some t => if prefix t s
                  then k (substring (String.length t) (String.length s) s) m
                  else None
      | None => None
      end
  | Eol =>
      match s with
      | EmptyString => k s m
      | String a EmptyString => if Ascii.eqb a "010" then k s m else None
      | _ => None
      end
  end.

(** [pattern.fullmatch(s)] *)
Definition fullmatch (r : regex) (s : string) : option groups :=
  run r s [] (fun rest m => match rest with
                            | EmptyString => Some m
                            | _ => None
                            end).

Fixpoint lits (s : string) : regex :=
  match s with
  | EmptyString => Eps
  | String a s' => Seq (Lit a) (lits s')
  end.

Definition seqs (rs : list regex) : regex := fold_right Seq Eps rs.

Definition digit : regex := Class Py.is_digit.

(** [[\d]{3}] *)
Definition digit3 : regex := Seq digit (Seq digit digit).

End Re.

(** ** name_check *)

Import Re.

Definition is_rerun_letter (c : ascii) : bool :=
  ((97 <=? nat_of_ascii c) && (nat_of_ascii c <=? 100))%nat.

(** [coc_RE]:
    [([\d]{3}([\d]{3})([a-d]{1})?(-([\d]{3})(\3)?)?coc\.pdf$|(QC|WP|SP)([\d]{3})-([\d]{3})coc\.pdf$)] *)
Definition coc_RE : regex :=
  Group 1
    (Alt
       (seqs [digit3; Group 2 digit3; Opt (Group 3 (Class is_rerun_letter));
              Opt (Group 4 (seqs [Lit "-"; Group 5 digit3;
                                  Opt (Group 6 (Backref 3))]));
              lits "coc.pdf"; Eol])
       (seqs [Group 7 (Alt (lits "QC") (Alt (lits "WP") (lits "SP")));
              Group 8 digit3; Lit "-"; Group 9 digit3;
              lits "coc.pdf"; Eol])).

(** [name_RE] of [strip_chars] (the leading [^] is void under [fullmatch]):
    [^[\d]{6}pg[0-9]{1}\.pdf$|(QC|WP|SP)([\d]{3})-([\d]{3})pg[0-9]{1}\.pdf$] *)
Definition name_RE : regex :=
  Alt
    (seqs [digit3; digit3; lits "pg"; digit; lits ".pdf"; Eol])
    (seqs [Group 1 (Alt (lits "QC") (Alt (lits "WP") (lits "SP")));
           Group 2 digit3; Lit "-"; Group 3 digit3;
           lits "pg"; digit; lits ".pdf"; Eol]).

(** What the loop body of [name_check] does with one name. *)
Inductive verdict : Type :=
| Pass                (* [continue] *)
| Bad                 (* [bad_names.append(i)] *)
| Fault.              (* [int(None)]: the call raises *)

Definition group_int (m : groups) (n : nat) : option Z :=
  match group m n with
  | Some t => Py.int t
  | None => None
  end.

Definition check_one (i : string) : verdict :=
  match fullmatch coc_RE i with
  | Some m =>
      if Py.startswith_any i ["QC"; "SP"; "WP"] then Pass
      else if Py.contains "-" i then
        match group_int m 2, group_int m 5 with
        | Some first, Some last =>
            let diff := Z.abs (last - first) in
            if (diff =? 0)%Z then Bad
            else if ((last <? first) && (diff <? 100))%Z then Bad
            else Pass
        | _, _ => Fault
        end
      else Pass
  | None => Bad
  end.

(** The listing loop: each directory listing is appended and one
    [.DS_Store] entry, if present, is dropped from the accumulated list. *)
Definition gather (listings : list (list string)) : list string :=
  fold_left
    (fun coc_list listing =>
       let coc_list := coc_list ++ listing in
       match Py.remove ".DS_Store" coc_list with
       | Some l => l
       | None => coc_list
       end)
    listings [].

Fixpoint bad_names_of (coc_list : list string) : option (list string) :=
  match coc_list with
  | [] => Some []
  | i :: rest =>
      match check_one i, bad_names_of rest with
      | Fault, _ => None
      | _, None => None
      | Bad, Some bad => Some (i :: bad)
      | Pass, Some bad => Some bad
      end
  end.

(** [name_check], applied to the listings of its argument directories:
    the pair of [bad_names] (or [None]) and [coc_list]. *)
Definition name_check (listings : list (list string))
  : option (option (list string) * list string) :=
  let coc_list := gather listings in
  match bad_names_of coc_list with
  | None => None
  | Some [] => Some (None, coc_list)
  | Some bad => Some (Some bad, coc_list)
  end.

(** A page name accepted by [strip_chars]. *)
Definition page_name_ok (p : string) : bool :=
  match fullmatch name_RE p with Some _ => true | None => false end.

(** ** get_ranges, find_coc, backcheck, aggregator *)

Record bundle : Type := {
  coc : string;
  pdfs : list string;
  missing_pdfs : option (list string)
}.

(** [report_dict]: report name to bundle, in insertion order. *)
Definition dict : Type := list (string * bundle).

(** [d[k] = v]: an existing key keeps its place. *)
Fixpoint dict_set (d : dict) (k : string) (v : bundle) : dict :=
  match d with
  | [] => [(k, v)]
  | (k', v') :: d' =>
      if String.eqb k' k then (k', v) :: d' else (k', v') :: dict_set d' k v
  end.

Fixpoint dict_get (d : dict) (k : string) : option bundle :=
  match d with
  | [] => None
  | (k', v') :: d' => if String.eqb k' k then Some v' else dict_get d' k
  end.

(** The three objects [aggregator] mutates in place. *)
Record state : Type := {
  missing_coc_list : list string;
  pdf_stack : list string;
  report_dict : dict
}.

Inductive outcome : Type :=
| Returned (missing : list string) (report : dict)
| Raised                     (* an exception leaves the function *)
| Exhausted.                 (* the iteration bound was reached *)

(** A set order for concrete runs: the order of construction. *)
Definition id_order (l : list string) : list string := l.

Section Collator.

(** The three CoC directories (module constants of the source). *)
Variables AUS_COCS CORP_COCS PT_COCS : string.

(** The order in which a set with the given elements is iterated. *)
Variable set_order : list string -> list string.

(** [coc_tuple]: the Austin, Corpus and PT sets. *)
Definition coc_sets : Type := (list string * list string * list string)%type.

Fixpoint find_coc (coc_list : list string) (coc_tuple : coc_sets)
         (pdf_name : string) : option string :=
  let pattern := Py.drop_last 7 pdf_name in
  match coc_list with
  | [] => None
  | i :: rest =>
      if Py.startswith i pattern then
        let '(A_set, C_set, _) := coc_tuple in
        if Py.mem i A_set then Some (Py.path_join AUS_COCS i)
        else if Py.mem i C_set then Some (Py.path_join CORP_COCS i)
        else Some (Py.path_join PT_COCS i)
      else find_coc rest coc_tuple pdf_name
  end.

(** The two arithmetic branches of [get_ranges] share this tail: [last]
    is already one past the end. *)
Definition rollover (first last : Z) : Z :=
  if (last <? first)%Z then (last + 1000)%Z else last.

Definition get_ranges (coc_name : string) : option (list string) :=
  let r := Py.drop_last 7 coc_name in
  if Py.startswith_any r ["QC"; "WP"; "SP"] then Some (Py.set [r])
  else if Py.contains "-" r then
    match Py.split "-" r with
    | [first; last] =>
        let last := (Py.take 3 first ++ last)%string in
        if Py.isnumeric first then
          match Py.int first, Py.int last with
          | Some first, Some last =>
              let last := rollover first (last + 1) in
              Some (Py.set (map Py.str (Py.range first last)))
          | _, _ => None
          end
        else
          let rerun_char := Py.last_char first in
          match Py.int (Py.drop_last 1 first),
                Py.int (Py.drop_last 1 last) with
          | Some first, Some last =>
              let last := rollover first (last + 1) in
              Some (Py.set (map (fun x => (Py.str x ++ rerun_char)%string)
                                (Py.range first last)))
          | _, _ => None
          end
    | _ => None
    end
  else Some (Py.set [r]).

Definition backcheck (coc_name : string) (pdf_stack : list string)
  : option (list string * option (list string)) :=
  match get_ranges coc_name with
  | None => None
  | Some required_pdfs =>
      let file_set := Py.set (map (Py.drop_last 7) pdf_stack) in
      if Py.issubset required_pdfs file_set
      then Some (set_order required_pdfs, None)
      else Some (set_order required_pdfs,
                 Some (set_order (Py.difference required_pdfs file_set)))
  end.

(** The double loop that fills [matched_pdfs]. *)
Definition match_pages (required_pdfs pdf_stack : list string) : list string :=
  flat_map (fun j => filter (fun k => Py.startswith k j) pdf_stack)
           required_pdfs.

(** [for f in matched_pdfs: pdf_stack.remove(f)] *)
Fixpoint remove_each (matched_pdfs pdf_stack : list string)
  : option (list string) :=
  match matched_pdfs with
  | [] => Some pdf_stack
  | f :: rest =>
      match Py.remove f pdf_stack with
      | None => None
      | Some pdf_stack' => remove_each rest pdf_stack'
      end
  end.

(** The [else] branch of the loop body up to the dict assignment: report
    name, bundle and the stack that remains.  [None]: an exception. *)
Definition collect (coc : string) (pdf_stack : list string)
  : option (string * bundle * list string) :=
  let coc_name := Py.basename coc in
  let report_name := Py.remove_substring "coc" coc_name in
  match backcheck coc_name pdf_stack with
  | None => None
  | Some (required_pdfs, missing_pdfs) =>
      let matched_pdfs := match_pages required_pdfs pdf_stack in
      match remove_each matched_pdfs pdf_stack with
      | None => None
      | Some pdf_stack' =>
          Some (report_name,
                {| coc := coc; pdfs := Py.sort matched_pdfs;
                   missing_pdfs := missing_pdfs |},
                pdf_stack')
      end
  end.

(** One pass through the body of the [while] loop, up to the recursive
    call. *)
Definition iteration (coc_list : list string) (coc_tuple : coc_sets)
           (s : state) : option state :=
  match pdf_stack s with
  | [] => Some s
  | p :: rest =>
      match find_coc coc_list coc_tuple p with
      | None =>
          Some {| missing_coc_list := missing_coc_list s ++ [p];
                  pdf_stack := rest;
                  report_dict := report_dict s |}
      | Some coc =>
          match collect coc (pdf_stack s) with
          | None => None
          | Some (report_name, b, pdf_stack') =>
              Some {| missing_coc_list := missing_coc_list s;
                      pdf_stack := pdf_stack';
                      report_dict := dict_set (report_dict s) report_name b |}
          end
      end
  end.

(** The loop with its recursive call.  The callee works on the caller's
    three objects and returns only once the stack is empty, after which
    the caller's [while] test fails and the same objects are returned: the
    nesting is a plain repetition of [iteration].  [fuel] bounds the
    number of iterations (the interpreter bounds the nesting depth). *)
Fixpoint drain (fuel : nat) (coc_list : list string) (coc_tuple : coc_sets)
         (s : state) : outcome :=
  match pdf_stack s with
  | [] => Returned (missing_coc_list s) (report_dict s)
  | _ :: _ =>
      match fuel with
      | O => Exhausted
      | S fuel' =>
          match iteration coc_list coc_tuple s with
          | None => Raised
          | Some s' => drain fuel' coc_list coc_tuple s'
          end
      end
  end.

Definition aggregator (fuel : nat) (coc_list : list string)
           (coc_tuple : coc_sets) (missing_coc_list pdf_stack : list string)
           (report_dict : dict) : outcome :=
  drain fuel coc_list coc_tuple
        {| missing_coc_list := missing_coc_list;
           pdf_stack := pdf_stack;
           report_dict := report_dict |}.

(** A call that leaves [report_dict] out.  The default [{}] is evaluated
    once, when the [def] statement is executed; every such call binds
    [report_dict] to that one dict object, fills it and returns it.
    [shared] is what the object holds when the call starts. *)
Definition aggregator_default (fuel : nat) (coc_list : list string)
           (coc_tuple : coc_sets) (missing_coc_list pdf_stack : list string)
           (shared : dict) : outcome :=
  aggregator fuel coc_list coc_tuple missing_coc_list pdf_stack shared.

(** Two such calls in one interpreter session, each with a fresh
    [missing_coc_list], the first finding the default object empty.  A
    returned dictionary is the shared object itself, so the second call
    starts from what the first returned.  [None]: the first call does not
    return. *)
Definition two_default_calls (fuel : nat)
           (coc_list1 : list string) (coc_tuple1 : coc_sets)
           (pdf_stack1 : list string)
           (coc_list2 : list string) (coc_tuple2 : coc_sets)
           (pdf_stack2 : list string) : option (outcome * outcome) :=
  match aggregator_default fuel coc_list1 coc_tuple1 [] pdf_stack1 [] with
  | Returned missing1 shared =>
      Some (Returned missing1 shared,
            aggregator_default fuel coc_list2 coc_tuple2 [] pdf_stack2 shared)
  | _ => None
  end.

(** The state after [n] iterations, [None] when one of them raised. *)
Fixpoint after (n : nat) (coc_list : list string) (coc_tuple : coc_sets)
         (s : state) : option state :=
  match n with
  | O => Some s
  | S n' =>
      match pdf_stack s with
      | [] => Some s
      | _ :: _ =>
          match iteration coc_list coc_tuple s with
          | None => None
          | Some s' => after n' coc_list coc_tuple s'
          end
      end
  end.

(** The bundle an iteration assigns into [report_dict], if it does. *)
Definition emission (coc_list : list string) (coc_tuple : coc_sets)
           (s : state) : list (string * bundle) :=
  match pdf_stack s with
  | [] => []
  | p :: _ =>
      match find_coc coc_list coc_tuple p with
      | None => []
      | Some coc =>
          match collect coc (pdf_stack s) with
          | None => []
          | Some (report_name, b, _) => [(report_name, b)]
          end
      end
  end.

(** The bundles assigned by the first [n] iterations, in order. *)
Fixpoint emitted (n : nat) (coc_list : list string) (coc_tuple : coc_sets)
         (s : state) : list (string * bundle) :=
  match n with
  | O => []
  | S n' =>
      match iteration coc_list coc_tuple s with
      | None => []
      | Some s' =>
          emission coc_list coc_tuple s ++ emitted n' coc_list coc_tuple s'
      end
  end.

(** ** file_check, strip_chars, total_file_size, collate and the core of main *)

(** [file_check], on the listing of its directory. *)
Definition file_check (listing : list string) : bool :=
  if Nat.eqb (List.length listing) 0 then false
  else if Nat.eqb (List.length listing) 1 && Py.mem ".DS_Store" listing
       then false
       else true.

(** [\s] on the characters below 128: tab to carriage return, the four
    separators 28 to 31 and the space. *)
Definition is_space (c : ascii) : bool :=
  (((9 <=? nat_of_ascii c) && (nat_of_ascii c <=? 13))
   || ((28 <=? nat_of_ascii c) && (nat_of_ascii c <=? 32)))%nat.

Fixpoint skip_digits (s : string) : string :=
  match s with
  | EmptyString => EmptyString
  | String a s' => if Py.is_digit a then skip_digits s' else s
  end.

(** [re.split(prefix_RE, name)[1]] for [prefix_RE = ^job_[\d]*[\s]{1}];
    [None] is [IndexError].  The pattern can match at the start only, so
    the split has two parts, the second being what follows the match, or
    one part when there is no match.  A digit is no space: giving digits
    back never helps, and the match is the literal [job_], all the digits
    that follow and one space character. *)
Definition strip_prefix (name : string) : option string :=
  if Py.startswith name "job_" then
    match skip_digits (substring 4 (String.length name) name) with
    | String a rest => if is_space a then Some rest else None
    | EmptyString => None
    end
  else None.

(** The [while] loop of [strip_chars]: the updated [dirlist] and
    [bad_pdf_names]; [None] when a rename raises.  [rename_ok old new]
    tells whether [os.rename] of a file of the directory to a new name
    succeeds; a failure is an [OSError], which [strip_chars] does not
    catch. *)
Fixpoint strip_loop (rename_ok : string -> string -> bool)
         (dirlist : list string) : option (list string * list string) :=
  match dirlist with
  | [] => Some ([], [])
  | name :: rest =>
      if Py.startswith name "job" then
        match strip_prefix name with
        | Some new =>
            if rename_ok name new then
              match strip_loop rename_ok rest with
              | Some (dirlist', bad) =>
                  Some (new :: dirlist',
                        if page_name_ok new then bad else new :: bad)
              | None => None
              end
            else None
        | None =>
            match strip_loop rename_ok rest with
            | Some (dirlist', bad) => Some (name :: dirlist', name :: bad)
            | None => None
            end
        end
      else
        match strip_loop rename_ok rest with
        | Some (dirlist', bad) =>
            Some (name :: dirlist',
                  if page_name_ok name then bad else name :: bad)
        | None => None
        end
  end.

(** [x.discard(y)] on a set, and the removal of one [.DS_Store] entry from
    a listing. *)
Definition discard (y : string) (l : list string) : list string :=
  filter (fun x => negb (String.eqb x y)) l.

Definition drop_ds_store (listing : list string) : list string :=
  match Py.remove ".DS_Store" listing with
  | Some l => l
  | None => listing
  end.

(** [strip_chars], on the listing of its directory: the valid names and
    the bad names (or [None]). *)
Definition strip_chars (rename_ok : string -> string -> bool)
           (listing : list string)
  : option (list string * option (list string)) :=
  match strip_loop rename_ok (drop_ds_store listing) with
  | None => None
  | Some (dirlist, bad_pdf_names) =>
      let valid_names :=
        set_order (Py.difference (Py.set dirlist) (Py.set bad_pdf_names)) in
      match bad_pdf_names with
      | [] => Some (valid_names, None)
      | _ => Some (valid_names, Some bad_pdf_names)
      end
  end.

(** The files that exist, with their sizes in bytes. *)
Definition filesystem : Type := string -> option Z.

(** The argument of [total_file_size]: one path or a list of paths (any
    other type raises [TypeError]). *)
Inductive file_arg : Type :=
| OneFile (path : string)
| Files (paths : list string).

(** The [for] loop over a list of paths; [None] is the [False] returned at
    the first path that does not exist. *)
Fixpoint add_sizes (fs : filesystem) (total_size : Z) (file_list : list string)
  : option Z :=
  match file_list with
  | [] => Some total_size
  | f :: rest =>
      match fs f with
      | Some size => add_sizes fs (total_size + size) rest
      | None => None
      end
  end.

Definition total_file_size (fs : filesystem) (file_list : file_arg)
  : option Z :=
  match file_list with
  | OneFile path => fs path
  | Files paths => add_sizes fs 0 paths
  end.

(** The directories of the reviewed pages and of the finished reports. *)
Variables REVD_REPORTS FIN_REPORTS : string.

(** [gs_list] and [command] of [collate]. *)
Definition gs_list (dictionary : bundle) : list string :=
  map (Py.path_join REVD_REPORTS) (pdfs dictionary) ++ [coc dictionary].

Definition gs_command (report_name : string) (dictionary : bundle)
  : list string :=
  ["gs"; "-q"; "-dBATCH"; "-dNOPAUSE"; "-sDEVICE=pdfwrite";
   "-dAutoRotatePages=/PageByPage";
   ("-sOutputFile=" ++ Py.path_join FIN_REPORTS report_name)%string]
  ++ gs_list dictionary.

(** [collate]: the command handed to the subprocess and the returned
    [start_size]. *)
Definition collate (fs : filesystem) (report_name : string)
           (dictionary : bundle) : list string * option Z :=
  (gs_command report_name dictionary,
   total_file_size fs (Files (gs_list dictionary))).

(** How [main] ends, up to the reconciliation. *)
Inductive main_outcome : Type :=
| NoFiles                                  (* [sys.exit(0)] *)
| BadCocNames (bad_names : list string)    (* [sys.exit(1)] *)
| Crashed                                  (* an uncaught exception *)
| Unfinished                               (* the iteration bound *)
| Reconciled (bad_pdf_names : option (list string))
             (missing : list string) (report : dict).

(** [main] from [file_check] to the call of [aggregator], on the listings
    of the four directories ([system_checks] and the printing left
    out).  The call leaves [report_dict] out and is the first of the
    interpreter, so the shared default dictionary is empty. *)
Definition main_core (rename_ok : string -> string -> bool) (fuel : nat)
           (aus corp pt revd : list string) : main_outcome :=
  if negb (file_check revd) then NoFiles
  else
    match name_check [aus; corp; pt] with
    | None => Crashed
    | Some (Some bad_names, _) => BadCocNames bad_names
    | Some (None, coc_list) =>
        match strip_chars rename_ok revd with
        | None => Crashed
        | Some (good_pdf_names, bad_pdf_names) =>
            let A_set := discard ".DS_Store" (Py.set aus) in
            let C_set := discard ".DS_Store" (Py.set corp) in
            let P_set := discard ".DS_Store" (Py.set pt) in
            let coc_tuple := (A_set, C_set, P_set) in
            let pdf_stack := Py.sort good_pdf_names in
            match aggregator_default fuel coc_list coc_tuple [] pdf_stack []
            with
            | Returned missing report =>
                Reconciled bad_pdf_names missing report
            | Raised => Crashed
            | Exhausted => Unfinished
            end
        end
    end.

(** ** Notions used to state the properties *)

(** The order of [list.sort] on strings. *)
Definition str_le (a b : string) : Prop := String.leb a b = true.

(** The pages held by a sequence of emitted bundles. *)
Definition pages_of (bundles : list (string * bundle)) : list string :=
  flat_map (fun e => pdfs (snd e)) bundles.

(** The dictionary that results from assigning the bundles in order. *)
Definition assign_all (d : dict) (bundles : list (string * bundle)) : dict :=
  fold_left (fun d e => dict_set d (fst e) (snd e)) bundles d.

(** The prefix of a page name: the name without its [pg#.pdf] suffix. *)
Definition page_prefix (k : string) : string := Py.drop_last 7 k.

(** The path [find_coc] builds for the CoC name [i]. *)
Definition coc_path (coc_tuple : coc_sets) (i : string) : string :=
  let '(A_set, C_set, _) := coc_tuple in
  if Py.mem i A_set then Py.path_join AUS_COCS i
  else if Py.mem i C_set then Py.path_join CORP_COCS i
  else Py.path_join PT_COCS i.

(** The report name [aggregator] derives from a CoC path. *)
Definition report_name_of (path : string) : string :=
  Py.remove_substring "coc" (Py.basename path).

(** No page of the stack starts with an id required by the CoC. *)
Definition spent (path : string) (stack : list string) : Prop :=
  forall required,
    get_ranges (Py.basename path) = Some required ->
    forall k j, In k stack -> In j required -> Py.startswith k j = false.

(** The matching rule read as equality of page prefix and id. *)
Definition match_pages_by_prefix (required_pdfs pdf_stack : list string)
  : list string :=
  flat_map (fun j => filter (fun k => String.eqb (page_prefix k) j) pdf_stack)
           required_pdfs.

(** Parts of a range name: the first three digits of the start, its last
    three digits, and the three characters that follow the dash. *)
Definition start_high_digits (i : string) : string := substring 0 3 i.

Definition start_low_digits (i : string) : string := substring 3 3 i.

Definition end_digits (i : string) : string :=
  match Py.split "-" i with
  | [_; t] => Py.take 3 t
  | _ => EmptyString
  end.

(** The rejection rule of [name_check] on the two numbers it compares. *)
Definition range_rule (first last : Z) : bool :=
  ((Z.abs (last - first) =? 0)
   || ((last <? first) && (Z.abs (last - first) <? 100)))%Z.

(** The names [coc_RE] can match, by their parts. *)
Definition str3 (a b c : ascii) : string :=
  String a (String b (String c EmptyString)).

Definition single_name (hi lo rerun : string) : string :=
  (hi ++ lo ++ rerun ++ "coc.pdf")%string.

Definition range_name (hi lo rerun last rerun_end : string) : string :=
  (hi ++ lo ++ rerun ++ "-" ++ last ++ rerun_end ++ "coc.pdf")%string.

Definition control_name (tag num last : string) : string :=
  (tag ++ num ++ "-" ++ last ++ "coc.pdf")%string.

Definition digits3 (s : string) : Prop :=
  exists a b c,
    s = str3 a b c /\
    Py.is_digit a = true /\ Py.is_digit b = true /\ Py.is_digit c = true.

Definition rerun_suffix (s : string) : Prop :=
  s = EmptyString \/
  exists l, is_rerun_letter l = true /\ s = String l EmptyString.

(** Whatever the iteration order of a set is, it lists the elements of the
    set. *)
Hypothesis set_order_perm : forall l, Permutation (set_order l) l.

(** ** Facts about the list operations *)

Section ListFacts.

Lemma mem_In x l : Py.mem x l = true <-> In x l.
Proof.
  unfold Py.mem. rewrite existsb_exists. split.
  - intros [y [Hy He]]. apply String.eqb_eq in He. now subst.
  - intros H. exists x. split; [assumption | apply String.eqb_refl].
Qed.

Lemma mem_false x l : Py.mem x l = false <-> ~ In x l.
Proof.
  rewrite <- mem_In. destruct (Py.mem x l); split; congruence.
Qed.

Lemma set_In x l : In x (Py.set l) <-> In x l.
Proof. apply nodup_In. Qed.

Lemma set_NoDup l : NoDup (Py.set l).
Proof. apply NoDup_nodup. Qed.

Lemma remove_perm x l l' :
  Py.remove x l = Some l' -> Permutation l (x :: l').
Proof.
  revert l'. induction l as [|y l IH]; simpl; intros l' H; [discriminate|].
  destruct (String.eqb y x) eqn:E.
  - apply String.eqb_eq in E. injection H as <-. now subst.
  - destruct (Py.remove x l) as [r|]; [|discriminate].
    injection H as <-. rewrite (IH r eq_refl). apply perm_swap.
Qed.

Lemma remove_each_perm ms l l' :
  remove_each ms l = Some l' -> Permutation l (ms ++ l').
Proof.
  revert l. induction ms as [|f ms IH]; simpl; intros l H.
  - injection H as <-. reflexivity.
  - destruct (Py.remove f l) as [r|] eqn:E; [|discriminate].
    rewrite (remove_perm _ _ _ E). constructor. now apply IH.
Qed.

Lemma remove_each_nil l : remove_each [] l = Some l.
Proof. reflexivity. Qed.

Lemma insert_sorted_perm x l : Permutation (Py.insert_sorted x l) (x :: l).
Proof.
  induction l as [|y l IH]; simpl; [reflexivity|].
  destruct (String.leb x y); [reflexivity|].
  rewrite IH. apply perm_swap.
Qed.

Lemma sort_perm l : Permutation (Py.sort l) l.
Proof.
  induction l as [|x l IH]; simpl; [reflexivity|].
  rewrite insert_sorted_perm. now constructor.
Qed.

Lemma ascii_compare_N a b :
  Ascii.compare a b = N.compare (N_of_ascii a) (N_of_ascii b).
Proof. reflexivity. Qed.

Lemma string_compare_trans_le a b c :
  String.compare a b <> Gt -> String.compare b c <> Gt ->
  String.compare a c <> Gt.
Proof.
  revert b c. induction a as [|x a IH]; intros [|y b] [|z c]; simpl;
    try congruence.
  rewrite !ascii_compare_N.
  destruct (N.compare_spec (N_of_ascii x) (N_of_ascii y)) as [Exy|Lxy|Gxy];
    destruct (N.compare_spec (N_of_ascii y) (N_of_ascii z)) as [Eyz|Lyz|Gyz];
    try congruence; intros H1 H2.
  - rewrite Exy, Eyz, N.compare_refl. eauto.
  - rewrite Exy. now apply N.compare_lt_iff in Lyz as ->.
  - rewrite <- Eyz. now apply N.compare_lt_iff in Lxy as ->.
  - assert (L : (N_of_ascii x < N_of_ascii z)%N) by lia.
    now apply N.compare_lt_iff in L as ->.
Qed.

Lemma str_le_trans a b c : str_le a b -> str_le b c -> str_le a c.
Proof.
  unfold str_le, String.leb. intros H1 H2.
  pose proof (string_compare_trans_le a b c) as T.
  destruct (String.compare a b); destruct (String.compare b c);
    destruct (String.compare a c); try reflexivity; try discriminate;
    exfalso; apply T; congruence.
Qed.

Lemma str_le_refl a : str_le a a.
Proof. destruct (String.leb_total a a); assumption. Qed.

Lemma insert_sorted_sorted x l :
  StronglySorted str_le l -> StronglySorted str_le (Py.insert_sorted x l).
Proof.
  induction 1 as [|y l Hs IH Hall]; simpl.
  - repeat constructor.
  - destruct (String.leb x y) eqn:E.
    + constructor; [now constructor|]. constructor; [exact E|].
      eapply Forall_impl; [|exact Hall]. intros z Hz.
      eapply str_le_trans; eassumption.
    + constructor; [exact IH|].
      assert (Hyx : str_le y x).
      { destruct (String.leb_total x y) as [H|H]; [congruence|exact H]. }
      eapply Permutation_Forall.
      * symmetry. apply insert_sorted_perm.
      * now constructor.
Qed.

Lemma sort_sorted l : StronglySorted str_le (Py.sort l).
Proof.
  induction l as [|x l IH]; simpl; [constructor|].
  now apply insert_sorted_sorted.
Qed.

(** A list of strings has one sorted arrangement. *)
Lemma sorted_unique l l' :
  StronglySorted str_le l -> StronglySorted str_le l' ->
  Permutation l l' -> l = l'.
Proof.
  intros Hl. revert l'. induction Hl as [|x l Hs IH Hall]; intros l' Hl' P.
  - now apply Permutation_nil in P.
  - destruct Hl' as [|y l' Hs' Hall'].
    + symmetry in P. now apply Permutation_nil in P.
    + assert (E : x = y).
      { apply String.leb_antisym.
        - assert (I : In y (x :: l)).
          { eapply Permutation_in; [symmetry; exact P | now left]. }
          destruct I as [E|I]; [rewrite E; apply str_le_refl|].
          rewrite Forall_forall in Hall. now apply Hall.
        - assert (I : In x (y :: l')).
          { eapply Permutation_in; [exact P | now left]. }
          destruct I as [E|I]; [rewrite E; apply str_le_refl|].
          rewrite Forall_forall in Hall'. now apply Hall'. }
      subst y. f_equal. apply IH; [assumption|].
      eapply Permutation_cons_inv; exact P.
Qed.

Lemma sort_order_independent l l' :
  Permutation l l' -> Py.sort l = Py.sort l'.
Proof.
  intros P. apply sorted_unique; try apply sort_sorted.
  rewrite !sort_perm. exact P.
Qed.

Lemma match_pages_In k required stack :
  In k (match_pages required stack) <->
  In k stack /\ exists j, In j required /\ Py.startswith k j = true.
Proof.
  unfold match_pages. rewrite in_flat_map. split.
  - intros [j [Hj Hk]]. apply filter_In in Hk as [Hk Hs]. eauto.
  - intros [Hk [j [Hj Hs]]]. exists j. split; [assumption|].
    apply filter_In. now split.
Qed.

Lemma match_pages_perm required required' stack :
  Permutation required required' ->
  Permutation (match_pages required stack) (match_pages required' stack).
Proof.
  unfold match_pages. intros P. now apply Permutation_flat_map.
Qed.

Lemma count_occ_filter_keep (p : string -> bool) k l :
  p k = true ->
  count_occ string_dec (filter p l) k = count_occ string_dec l k.
Proof.
  intros Hk. induction l as [|x l IH]; simpl; [reflexivity|].
  destruct (string_dec x k) as [->|N].
  - rewrite Hk. simpl. destruct (string_dec k k); congruence.
  - destruct (p x); simpl; [|exact IH].
    destruct (string_dec x k); congruence.
Qed.

Lemma count_occ_flat_map_ge (f : string -> list string) k j l :
  In j l ->
  count_occ string_dec (f j) k <= count_occ string_dec (flat_map f l) k.
Proof.
  induction l as [|x l IH]; simpl; [intros []|].
  rewrite count_occ_app. intros [->|I]; [lia|].
  specialize (IH I). lia.
Qed.

(** Once the matched pages are removed, no page that starts with a
    required id is left on the stack. *)
Lemma remove_each_leaves_none required stack stack' :
  remove_each (match_pages required stack) stack = Some stack' ->
  forall k j, In k stack' -> In j required -> Py.startswith k j = false.
Proof.
  intros R k j Ik Ij.
  destruct (Py.startswith k j) eqn:E; [exfalso | reflexivity].
  apply remove_each_perm in R.
  apply (Permutation_count_occ string_dec) with (x := k) in R.
  rewrite count_occ_app in R.
  apply (count_occ_In string_dec) in Ik.
  pose proof (count_occ_flat_map_ge
                (fun j => filter (fun k => Py.startswith k j) stack)
                k j required Ij) as G.
  cbv beta in G.
  rewrite (count_occ_filter_keep (fun k => Py.startswith k j)) in G
    by exact E.
  unfold match_pages in R. lia.
Qed.

(** A name that starts with an id as long as its own prefix has that id
    as its prefix. *)
Lemma prefix_length_eq p s :
  prefix p s = true -> substring 0 (String.length p) s = p.
Proof.
  revert s. induction p as [|a p IH]; intros [|b s]; simpl;
    try reflexivity; try discriminate.
  destruct (ascii_dec a b) as [->|]; [|discriminate].
  intros H. now rewrite IH.
Qed.

Lemma startswith_same_length k j :
  Py.startswith k j = true ->
  String.length j = String.length k - 7 ->
  Py.drop_last 7 k = j.
Proof.
  unfold Py.startswith, Py.drop_last. intros H <-.
  now apply prefix_length_eq.
Qed.

End ListFacts.


(** ** CoC lookup *)

Section Lookup.



Lemma drain_step fuel coc_list coc_tuple s p rest :
  pdf_stack s = p :: rest ->
  drain (S fuel) coc_list coc_tuple s
  = match iteration coc_list coc_tuple s with
    | None => Raised
    | Some s' => drain fuel coc_list coc_tuple s'
    end.
Proof. intros H. simpl. now rewrite H. Qed.

Lemma find_coc_none coc_list coc_tuple pdf_name :
  find_coc coc_list coc_tuple pdf_name = None <->
  forall c, In c coc_list ->
            Py.startswith c (Py.drop_last 7 pdf_name) = false.
Proof.
  induction coc_list as [|i rest IH]; simpl.
  - split; [intros _ c [] | reflexivity].
  - destruct (Py.startswith i (Py.drop_last 7 pdf_name)) eqn:E.
    + split.
      * destruct coc_tuple as [[A C] P].
        destruct (Py.mem i A); [discriminate|].
        destruct (Py.mem i C); discriminate.
      * intros H. specialize (H i (or_introl eq_refl)). congruence.
    + rewrite IH. split.
      * intros H c [<-|Hc]; auto.
      * intros H c Hc. apply H. now right.
Qed.

(** The CoC a page resolves to is an entry of [coc_list] that starts
    with the page's prefix, under one of the three directories. *)
Lemma find_coc_some coc_list coc_tuple pdf_name path :
  find_coc coc_list coc_tuple pdf_name = Some path ->
  exists i dir,
    In i coc_list /\
    Py.startswith i (Py.drop_last 7 pdf_name) = true /\
    In dir [AUS_COCS; CORP_COCS; PT_COCS] /\
    path = Py.path_join dir i.
Proof.
  induction coc_list as [|i rest IH]; simpl; [discriminate|].
  destruct (Py.startswith i (Py.drop_last 7 pdf_name)) eqn:E.
  - destruct coc_tuple as [[A C] P]. intros H. exists i.
    destruct (Py.mem i A); [|destruct (Py.mem i C)];
      injection H as <-; eexists; (split; [now left|]);
      (split; [exact E|]); (split; [|reflexivity]); simpl; auto.
  - intros H. destruct (IH H) as [j [dir [Hj Hrest]]].
    exists j, dir. split; [now right | exact Hrest].
Qed.


(** C10.  When the first CoC name that starts with the page's prefix is
    in neither the Austin nor the Corpus set, the answer is that name
    joined to the PT directory, whatever the PT set contains. *)
Theorem find_coc_falls_back_to_PT
        before i rest A_set C_set pdf_name :
  (forall c, In c before ->
             Py.startswith c (Py.drop_last 7 pdf_name) = false) ->
  Py.startswith i (Py.drop_last 7 pdf_name) = true ->
  Py.mem i A_set = false ->
  Py.mem i C_set = false ->
  forall P_set,
    find_coc (before ++ i :: rest) (A_set, C_set, P_set) pdf_name
    = Some (Py.path_join PT_COCS i).
Proof.
  intros Hb Hi HA HC P_set.
  induction before as [|c before IH]; simpl.
  - now rewrite Hi, HA, HC.
  - rewrite (Hb c (or_introl eq_refl)). apply IH.
    intros c' Hc'. apply Hb. now right.
Qed.

End Lookup.

(** ** Back-checking a range against the stack *)

Section Backcheck.



Lemma issubset_spec a b :
  Py.issubset a b = true <-> forall x, In x a -> In x b.
Proof.
  unfold Py.issubset. rewrite forallb_forall.
  split; intros H x Hx; apply mem_In; auto.
Qed.

Lemma difference_In x a b :
  In x (Py.difference a b) <-> In x a /\ ~ In x b.
Proof.
  unfold Py.difference. rewrite filter_In, negb_true_iff, mem_false.
  reflexivity.
Qed.

Lemma issubset_difference a b :
  Py.issubset a b = true <-> Py.difference a b = [].
Proof.
  rewrite issubset_spec. split.
  - intros H. destruct (Py.difference a b) as [|x l] eqn:E; [reflexivity|].
    assert (I : In x (Py.difference a b)) by (rewrite E; now left).
    apply difference_In in I as [Ia Ib]. now apply H in Ia.
  - intros E x Hx. destruct (in_dec string_dec x b) as [I|N]; [exact I|].
    assert (I : In x (Py.difference a b)) by now apply difference_In.
    rewrite E in I. destruct I.
Qed.

Lemma get_ranges_NoDup coc_name required :
  get_ranges coc_name = Some required -> NoDup required.
Proof.
  unfold get_ranges. intros H.
  repeat match type of H with
         | (if ?b then _ else _) = _ => destruct b
         | match ?x with _ => _ end = _ => destruct x
         end;
    try discriminate; injection H as <-;
    first [apply set_NoDup | constructor; [intros [] | constructor]].
Qed.

(** C7.  [backcheck] returns the required ids and, as [missing_pdfs],
    [None] when every required id is the prefix of some stack entry and
    otherwise the non-empty list (without repetition) of exactly the
    required ids that are not: the difference required - present, where
    present is the stack with the seven-character page suffix cut off
    each entry.  For [123450-452coc.pdf] with pages [123450pg1.pdf] and
    [123452pg1.pdf] that list is [['123451']]. *)
Theorem backcheck_reports_difference :
  (forall coc_name pdf_stack required,
      get_ranges coc_name = Some required ->
      let present := Py.set (map (Py.drop_last 7) pdf_stack) in
      exists required_pdfs missing,
        backcheck coc_name pdf_stack = Some (required_pdfs, missing) /\
        Permutation required_pdfs required /\
        match missing with
        | None => Py.difference required present = []
        | Some l =>
            l <> [] /\ NoDup l /\
            Permutation l (Py.difference required present) /\
            forall x, In x l <-> In x required /\ ~ In x present
        end) /\
  (exists required_pdfs,
      backcheck "123450-452coc.pdf" ["123450pg1.pdf"; "123452pg1.pdf"]
      = Some (required_pdfs, Some ["123451"])).
Proof.
  split.
  - intros coc_name pdf_stack required Hr present.
    unfold backcheck. rewrite Hr. fold present.
    destruct (Py.issubset required present) eqn:E.
    + exists (set_order required), None.
      repeat split; [apply set_order_perm|].
      now apply issubset_difference.
    + exists (set_order required),
        (Some (set_order (Py.difference required present))).
      split; [reflexivity|]. split; [apply set_order_perm|].
      assert (P := set_order_perm (Py.difference required present)).
      split; [|split; [|split]].
      * intros En. rewrite En in P. apply Permutation_nil in P.
        apply issubset_difference in P. congruence.
      * eapply Permutation_NoDup; [symmetry; exact P|].
        apply NoDup_filter. eapply get_ranges_NoDup; eassumption.
      * exact P.
      * intros x. rewrite <- difference_In.
        split; apply Permutation_in; [exact P | symmetry; exact P].
  - eexists. unfold backcheck.
    change (get_ranges "123450-452coc.pdf")
      with (Some ["123450"; "123451"; "123452"]).
    cbv beta iota.
    change (Py.set (map (Py.drop_last 7) ["123450pg1.pdf"; "123452pg1.pdf"]))
      with ["123450"; "123452"].
    change (Py.issubset ["123450"; "123451"; "123452"] ["123450"; "123452"])
      with false.
    change (Py.difference ["123450"; "123451"; "123452"]
                          ["123450"; "123452"]) with ["123451"].
    cbv beta iota.
    rewrite (Permutation_length_1_inv
               (Permutation_sym (set_order_perm ["123451"]))).
    reflexivity.
Qed.

End Backcheck.

(** ** The reconciliation loop *)

Section Engine.



Lemma collect_inv coc stack name b stack' :
  collect coc stack = Some (name, b, stack') ->
  exists required missing,
    get_ranges (Py.basename coc) = Some required /\
    backcheck (Py.basename coc) stack
    = Some (set_order required, missing) /\
    name = Py.remove_substring "coc" (Py.basename coc) /\
    b = {| coc := coc;
           pdfs := Py.sort (match_pages (set_order required) stack);
           missing_pdfs := missing |} /\
    remove_each (match_pages (set_order required) stack) stack = Some stack'.
Proof.
  unfold collect, backcheck.
  destruct (get_ranges (Py.basename coc)) as [required|]; [|discriminate].
  destruct (Py.issubset required _);
    (destruct (remove_each _ stack) as [st|] eqn:R; [|discriminate]);
    intros H; injection H as <- <- <-; eauto 10.
Qed.

Lemma collect_perm coc stack name b stack' :
  collect coc stack = Some (name, b, stack') ->
  Permutation stack (pdfs b ++ stack').
Proof.
  intros H. destruct (collect_inv _ _ _ _ _ H)
    as [required [missing [_ [_ [_ [-> R]]]]]].
  simpl. rewrite sort_perm. now apply remove_each_perm.
Qed.

Lemma iteration_empty coc_list coc_tuple s :
  pdf_stack s = [] -> iteration coc_list coc_tuple s = Some s.
Proof. unfold iteration. now intros ->. Qed.

Lemma emission_empty coc_list coc_tuple s :
  pdf_stack s = [] -> emission coc_list coc_tuple s = [].
Proof. unfold emission. now intros ->. Qed.

Lemma emitted_empty n coc_list coc_tuple s :
  pdf_stack s = [] -> emitted n coc_list coc_tuple s = [].
Proof.
  intros H. induction n as [|n IH]; simpl; [reflexivity|].
  now rewrite iteration_empty, emission_empty, IH.
Qed.

(** One iteration moves pages, it neither drops nor duplicates one. *)
Lemma iteration_conserves coc_list coc_tuple s s' :
  iteration coc_list coc_tuple s = Some s' ->
  Permutation
    (pages_of (emission coc_list coc_tuple s)
     ++ missing_coc_list s' ++ pdf_stack s')
    (missing_coc_list s ++ pdf_stack s) /\
  report_dict s'
  = assign_all (report_dict s) (emission coc_list coc_tuple s).
Proof.
  unfold iteration, emission.
  destruct (pdf_stack s) as [|p rest] eqn:Es.
  - intros H. injection H as <-. rewrite Es. now split.
  - destruct (find_coc coc_list coc_tuple p) as [c|].
    + destruct (collect c (p :: rest)) as [[[name b] stack']|] eqn:C;
        [|discriminate].
      intros H. injection H as <-. simpl. split; [|reflexivity].
      rewrite app_nil_r. apply collect_perm in C. rewrite C.
      rewrite !app_assoc. apply Permutation_app_tail, Permutation_app_comm.
    + intros H. injection H as <-. simpl. split; [|reflexivity].
      rewrite <- app_assoc. reflexivity.
Qed.

Lemma after_conserves n coc_list coc_tuple s0 s :
  after n coc_list coc_tuple s0 = Some s ->
  Permutation
    (pages_of (emitted n coc_list coc_tuple s0)
     ++ missing_coc_list s ++ pdf_stack s)
    (missing_coc_list s0 ++ pdf_stack s0) /\
  report_dict s
  = assign_all (report_dict s0) (emitted n coc_list coc_tuple s0).
Proof.
  revert s0. induction n as [|n IH]; intros s0; simpl.
  - intros H. injection H as <-. now split.
  - destruct (pdf_stack s0) as [|p rest] eqn:Es.
    + intros H. injection H as <-.
      rewrite iteration_empty, emission_empty, emitted_empty by assumption.
      rewrite Es. now split.
    + destruct (iteration coc_list coc_tuple s0) as [s1|] eqn:I;
        [|discriminate].
      intros H. destruct (IH _ H) as [P D].
      destruct (iteration_conserves _ _ _ _ I) as [P1 D1].
      rewrite Es in P1. split.
      * unfold pages_of in *. rewrite flat_map_app, <- app_assoc.
        rewrite P. exact P1.
      * unfold assign_all in *. rewrite fold_left_app. now rewrite <- D1.
Qed.

Lemma drain_returned fuel coc_list coc_tuple s0 missing report :
  drain fuel coc_list coc_tuple s0 = Returned missing report ->
  exists s, after fuel coc_list coc_tuple s0 = Some s /\
            pdf_stack s = [] /\
            missing_coc_list s = missing /\ report_dict s = report.
Proof.
  revert s0. induction fuel as [|n IH]; intros s0; simpl;
    destruct (pdf_stack s0) eqn:Es; try discriminate.
  - intros H. injection H as <- <-. eauto.
  - intros H. injection H as <- <-. eauto.
  - destruct (iteration coc_list coc_tuple s0) as [s1|]; [|discriminate].
    apply IH.
Qed.

(** X23.  What a bundle-emission step takes.  When a bundle is emitted
    for a CoC, its
    [pdfs] hold exactly the stack entries whose name starts with one of
    the required ids (every such entry, so several pages of one id are
    all taken); these entries are what the step takes off the stack, and
    no entry starting with a required id stays behind; [pdfs] is in
    ascending order and is the same list whatever order the required set
    was iterated in. *)
Theorem bundle_takes_pages_starting_with_ids coc stack name b stack' :
  collect coc stack = Some (name, b, stack') ->
  exists required,
    get_ranges (Py.basename coc) = Some required /\
    (forall k, In k (pdfs b) <->
               In k stack /\
               exists j, In j required /\ Py.startswith k j = true) /\
    Permutation stack (pdfs b ++ stack') /\
    (forall k j, In k stack' -> In j required ->
                 Py.startswith k j = false) /\
    StronglySorted str_le (pdfs b) /\
    pdfs b = Py.sort (match_pages required stack).
Proof.
  intros H. pose proof (collect_perm _ _ _ _ _ H) as P.
  destruct (collect_inv _ _ _ _ _ H)
    as [required [missing [G [_ [_ [-> R]]]]]].
  exists required. simpl in *. split; [exact G|].
  assert (Pm : Permutation (match_pages (set_order required) stack)
                           (match_pages required stack))
    by apply match_pages_perm, set_order_perm.
  split; [|split; [exact P|split; [|split]]].
  - intros k. rewrite <- match_pages_In. split; intros I.
    + eapply Permutation_in; [|exact I]. now rewrite sort_perm.
    + eapply Permutation_in; [|exact I]. symmetry. now rewrite sort_perm.
  - intros k j Ik Ij. eapply remove_each_leaves_none; eauto.
    eapply Permutation_in; [symmetry; apply set_order_perm | exact Ij].
  - apply sort_sorted.
  - now apply sort_order_independent.
Qed.

End Engine.

(** ** Paths *)

Section Paths.

Lemma contains_app c a b :
  Py.contains c (a ++ b)%string = Py.contains c a || Py.contains c b.
Proof.
  induction a as [|x a IH]; simpl; [reflexivity|].
  now rewrite IH, orb_assoc.
Qed.

Lemma basename_no_slash p : Py.contains "/" p = false -> Py.basename p = p.
Proof. destruct p as [|a p]; [reflexivity|]. intros H. simpl in *. now rewrite H. Qed.

Lemma basename_after_slash a i :
  Py.contains "/" i = false -> Py.basename (a ++ String "/" i)%string = i.
Proof.
  intros H. induction a as [|x a IH].
  - simpl. now rewrite H.
  - cbn [append Py.basename].
    replace (Py.contains "/" (String x (a ++ String "/" i)%string)) with true.
    + replace (Py.contains "/" (a ++ String "/" i)%string) with true; [exact IH|].
      rewrite contains_app. simpl. now rewrite orb_true_r.
    + simpl. rewrite contains_app. simpl. now rewrite !orb_true_r.
Qed.

Lemma last_char_cons x a :
  a <> EmptyString -> Py.last_char (String x a) = Py.last_char a.
Proof.
  destruct a as [|y a]; [congruence|]. intros _.
  unfold Py.last_char. cbn [String.length]. rewrite !Nat.sub_succ, !Nat.sub_0_r.
  reflexivity.
Qed.

Lemma last_char_is a c :
  Py.last_char a = String c EmptyString ->
  exists a', a = (a' ++ String c EmptyString)%string.
Proof.
  induction a as [|x a IH]; [discriminate|].
  destruct a as [|y a].
  - intros H. injection H as ->. now exists EmptyString.
  - rewrite last_char_cons by discriminate. intros H.
    destruct (IH H) as [a' E]. exists (String x a'). simpl. now rewrite <- E.
Qed.

Lemma append_assoc (a b c : string) :
  ((a ++ b) ++ c = a ++ (b ++ c))%string.
Proof. induction a as [|x a IH]; simpl; [reflexivity | now rewrite IH]. Qed.

(** A directory entry has no slash: joining it to a directory and taking
    the base name gives the entry back. *)
Lemma basename_path_join dir i :
  Py.contains "/" i = false -> Py.basename (Py.path_join dir i) = i.
Proof.
  intros H. unfold Py.path_join.
  assert (S : Py.startswith i "/" = false).
  { destruct i as [|x i]; [reflexivity|].
    cbn [Py.contains] in H. apply orb_false_iff in H as [H _].
    unfold Py.startswith. cbn [prefix].
    destruct (ascii_dec "/" x) as [<-|]; [discriminate | reflexivity]. }
  rewrite S. destruct (String.eqb dir "") eqn:E; simpl.
  - apply String.eqb_eq in E. subst. now apply basename_no_slash.
  - destruct (String.eqb (Py.last_char dir) "/") eqn:L.
    + apply String.eqb_eq in L. apply last_char_is in L as [a' ->].
      rewrite append_assoc. now apply basename_after_slash.
    + now apply basename_after_slash.
Qed.

End Paths.

(** ** Iterations that take nothing off the stack *)

Section Stall.



Lemma set_order_nil : set_order [] = [].
Proof. apply Permutation_nil. symmetry. apply set_order_perm. Qed.

Lemma set_order_singleton x : set_order [x] = [x].
Proof. apply Permutation_length_1_inv. symmetry. apply set_order_perm. Qed.

(** When the CoC found for the peeked page takes no page off the stack,
    every later iteration meets the same stack: the bound is always
    reached, whatever it is. *)
Lemma no_progress_never_returns coc_list coc_tuple p rest path name b :
  find_coc coc_list coc_tuple p = Some path ->
  collect path (p :: rest) = Some (name, b, p :: rest) ->
  forall fuel s,
    pdf_stack s = p :: rest ->
    drain fuel coc_list coc_tuple s = Exhausted.
Proof.
  intros F C. induction fuel as [|n IH]; intros s Es; simpl; rewrite Es;
    [reflexivity|].
  unfold iteration. rewrite Es, F, C. now apply IH.
Qed.

Lemma rerun_single_takes_nothing dir :
  collect (Py.path_join dir "123456acoc.pdf") ["123456pg1.pdf"]
  = Some ("123456a.pdf",
          {| coc := Py.path_join dir "123456acoc.pdf";
             pdfs := [];
             missing_pdfs := Some ["123456a"] |},
          ["123456pg1.pdf"]).
Proof.
  unfold collect. rewrite basename_path_join by reflexivity.
  unfold backcheck.
  change (get_ranges "123456acoc.pdf") with (Some ["123456a"]).
  cbv beta iota.
  change (Py.issubset ["123456a"]
            (Py.set (map (Py.drop_last 7) ["123456pg1.pdf"]))) with false.
  cbv beta iota.
  change (Py.difference ["123456a"]
            (Py.set (map (Py.drop_last 7) ["123456pg1.pdf"])))
    with ["123456a"].
  rewrite set_order_singleton. reflexivity.
Qed.

(** C1, at an input where it fails.  [123456acoc.pdf] passes [name_check]
    and [123456pg1.pdf] passes the page-name check.  The page's prefix
    [123456] starts the CoC name, so the CoC is found; its required set
    is [{'123456a'}], which the page does not start with; nothing is
    matched, nothing is removed, and the recursion meets the same
    one-page stack again without end: for no bound does the run return. *)
Theorem rerun_coc_stalls_the_loop :
  check_one "123456acoc.pdf" = Pass /\
  page_name_ok "123456pg1.pdf" = true /\
  forall coc_tuple missing report fuel,
    aggregator fuel ["123456acoc.pdf"] coc_tuple
               missing ["123456pg1.pdf"] report
    = Exhausted.
Proof.
  split; [reflexivity|]. split; [reflexivity|].
  intros coc_tuple missing report fuel. unfold aggregator.
  destruct (find_coc ["123456acoc.pdf"] coc_tuple "123456pg1.pdf")
    as [path|] eqn:F.
  - destruct (find_coc_some _ _ _ _ F)
      as [i [dir [[<-|[]] [_ [_ ->]]]]].
    eapply no_progress_never_returns;
      [exact F | apply rerun_single_takes_nothing | reflexivity].
  - exfalso.
    assert (N := proj1 (find_coc_none _ _ _) F "123456acoc.pdf"
                       (or_introl eq_refl)).
    discriminate N.
Qed.

End Stall.

(** ** No CoC is used twice in a run that returns *)

Section Fresh.

Lemma find_coc_path coc_list coc_tuple pdf_name path :
  find_coc coc_list coc_tuple pdf_name = Some path ->
  exists i, In i coc_list /\ path = coc_path coc_tuple i.
Proof.
  induction coc_list as [|i rest IH]; simpl; [discriminate|].
  destruct (Py.startswith i (Py.drop_last 7 pdf_name)).
  - intros H. exists i. split; [now left|].
    unfold coc_path. destruct coc_tuple as [[A C] P].
    destruct (Py.mem i A); [|destruct (Py.mem i C)];
      now injection H as <-.
  - intros H. destruct (IH H) as [j [Hj E]]. exists j. split; [now right|exact E].
Qed.

Lemma match_pages_none required stack :
  (forall k j, In k stack -> In j required -> Py.startswith k j = false) ->
  match_pages required stack = [].
Proof.
  intros H. destruct (match_pages required stack) as [|x l] eqn:E;
    [reflexivity|].
  assert (I : In x (match_pages required stack)) by (rewrite E; now left).
  apply match_pages_In in I as [Ik [j [Ij S]]].
  rewrite (H x j Ik Ij) in S. discriminate S.
Qed.

Lemma collect_spent path stack name b stack' :
  collect path stack = Some (name, b, stack') ->
  spent path stack -> stack' = stack.
Proof.
  intros C Sp. destruct (collect_inv _ _ _ _ _ C)
    as [required [missing [G [_ [_ [_ R]]]]]].
  rewrite match_pages_none in R.
  - simpl in R. now injection R as <-.
  - intros k j Ik Ij. apply (Sp required G k j Ik).
    eapply Permutation_in; [apply set_order_perm | exact Ij].
Qed.

Lemma collect_makes_spent path stack name b stack' :
  collect path stack = Some (name, b, stack') -> spent path stack'.
Proof.
  intros C required G k j Ik Ij.
  destruct (collect_inv _ _ _ _ _ C)
    as [required' [missing [G' [_ [_ [_ R]]]]]].
  rewrite G in G'. injection G' as <-.
  eapply remove_each_leaves_none; [exact R | exact Ik |].
  eapply Permutation_in; [symmetry; apply set_order_perm | exact Ij].
Qed.

Lemma spent_subset path stack stack' :
  (forall k, In k stack' -> In k stack) -> spent path stack -> spent path stack'.
Proof. intros Sub Sp required G k j Ik Ij. eapply Sp; eauto. Qed.

Lemma collect_fields path stack name b stack' :
  collect path stack = Some (name, b, stack') ->
  coc b = path /\ name = report_name_of path.
Proof.
  intros C. destruct (collect_inv _ _ _ _ _ C)
    as [required [missing [_ [_ [-> [-> _]]]]]].
  now split.
Qed.

(** In a run that returns, the CoC paths of the emitted bundles are
    pairwise different, and none is a path whose pages were already
    taken. *)
Lemma returned_paths_fresh coc_list coc_tuple missing report :
  forall fuel s0 done,
    (forall path, In path done -> spent path (pdf_stack s0)) ->
    drain fuel coc_list coc_tuple s0 = Returned missing report ->
    NoDup (map (fun e => coc (snd e)) (emitted fuel coc_list coc_tuple s0)) /\
    (forall e, In e (emitted fuel coc_list coc_tuple s0) ->
               ~ In (coc (snd e)) done).
Proof.
  induction fuel as [|n IH]; intros s0 done Hd R.
  - simpl. split; [constructor | intros e []].
  - destruct (pdf_stack s0) as [|p rest] eqn:Es.
    + rewrite emitted_empty by exact Es. simpl.
      split; [constructor | intros e []].
    + rewrite drain_step with (p := p) (rest := rest) in R by exact Es.
      cbn [emitted].
      destruct (iteration coc_list coc_tuple s0) as [s1|] eqn:I;
        [|discriminate R].
      unfold iteration in I. unfold emission. rewrite Es in *.
      destruct (find_coc coc_list coc_tuple p) as [path|] eqn:F.
      * destruct (collect path (p :: rest)) as [[[name b] stack']|] eqn:C;
          [|discriminate I].
        injection I as <-.
        destruct (collect_fields _ _ _ _ _ C) as [Eb _].
        assert (Nd : ~ In path done).
        { intros Ip. specialize (Hd path Ip).
          pose proof (collect_spent _ _ _ _ _ C Hd) as ->.
          erewrite no_progress_never_returns in R;
            [discriminate R | exact F | exact C | reflexivity]. }
        assert (Hs : forall q, In q (path :: done) -> spent q stack').
        { intros q [<-|Iq].
          - eapply collect_makes_spent; exact C.
          - eapply spent_subset; [|apply Hd; exact Iq].
            intros k Ik. apply collect_perm in C.
            eapply Permutation_in; [symmetry; exact C|].
            apply in_or_app. now right. }
        match type of R with
        | drain _ _ _ ?s1 = _ =>
            destruct (IH s1 (path :: done) Hs R) as [N1 N2]
        end.
        cbn [app map snd]. rewrite Eb. split.
        -- constructor; [|exact N1].
           intros Ip. apply in_map_iff in Ip as [e [Ee Ie]].
           apply (N2 e Ie). rewrite Ee. now left.
        -- intros e [<-|Ie].
           ++ cbn [snd]. now rewrite Eb.
           ++ intros Id. apply (N2 e Ie). now right.
      * injection I as <-. cbn [app].
        assert (Hs : forall q, In q done -> spent q rest).
        { intros q Iq. eapply spent_subset; [|apply Hd; exact Iq].
          intros k Ik. now right. }
        match type of R with
        | drain _ _ _ ?s1 = _ => exact (IH s1 done Hs R)
        end.
Qed.

Lemma emitted_from_coc_list coc_list coc_tuple :
  forall n s0 e,
    In e (emitted n coc_list coc_tuple s0) ->
    exists i, In i coc_list /\
              coc (snd e) = coc_path coc_tuple i /\
              fst e = report_name_of (coc (snd e)).
Proof.
  induction n as [|n IH]; intros s0 e; simpl; [intros []|].
  destruct (iteration coc_list coc_tuple s0) as [s1|]; [|intros []].
  intros I. apply in_app_or in I as [I|I]; [|eapply IH; exact I].
  unfold emission in I. destruct (pdf_stack s0) as [|p rest]; [destruct I|].
  destruct (find_coc coc_list coc_tuple p) as [path|] eqn:F; [|destruct I].
  destruct (collect path (p :: rest)) as [[[name b] stack']|] eqn:C;
    [|destruct I].
  destruct I as [<-|[]]. cbn [fst snd].
  destruct (collect_fields _ _ _ _ _ C) as [-> ->].
  destruct (find_coc_path _ _ _ _ F) as [i [Hi ->]]. eauto.
Qed.

Lemma dict_set_fresh d k v :
  ~ In k (map fst d) -> dict_set d k v = d ++ [(k, v)].
Proof.
  induction d as [|[k' v'] d IH]; simpl; [reflexivity|].
  intros N. destruct (String.eqb_spec k' k) as [->|_].
  - exfalso. apply N. now left.
  - rewrite IH; [reflexivity|]. intros I. apply N. now right.
Qed.

Lemma assign_all_fresh bundles :
  forall d, NoDup (map fst (d ++ bundles)) -> assign_all d bundles = d ++ bundles.
Proof.
  unfold assign_all.
  induction bundles as [|[k v] bundles IH]; intros d N; simpl.
  - now rewrite app_nil_r.
  - assert (F : ~ In k (map fst d)).
    { rewrite map_app in N. cbn [map fst] in N.
      apply NoDup_remove_2 in N. intros I. apply N.
      apply in_or_app. now left. }
    rewrite (dict_set_fresh d k v F).
    rewrite IH; rewrite <- app_assoc; [reflexivity | exact N].
Qed.

End Fresh.

(** ** The names accepted by the CoC pattern *)

Section Names.

Lemma run_lit c s m k r :
  run (Lit c) s m k = Some r ->
  exists s', s = String c s' /\ k s' m = Some r.
Proof.
  simpl. destruct s as [|a s]; [discriminate|].
  destruct (Ascii.eqb a c) eqn:E; [|discriminate].
  apply Ascii.eqb_eq in E. subst. eauto.
Qed.

Lemma run_class p s m k r :
  run (Class p) s m k = Some r ->
  exists a s', s = String a s' /\ p a = true /\ k s' m = Some r.
Proof.
  simpl. destruct s as [|a s]; [discriminate|].
  destruct (p a) eqn:E; [|discriminate]. eauto.
Qed.

Lemma run_alt r1 r2 s m k r :
  run (Alt r1 r2) s m k = Some r ->
  run r1 s m k = Some r \/ run r2 s m k = Some r.
Proof. simpl. destruct (run r1 s m k); [left | right]; assumption. Qed.

Lemma run_opt r1 s m k r :
  run (Opt r1) s m k = Some r ->
  run r1 s m k = Some r \/ k s m = Some r.
Proof. simpl. destruct (run r1 s m k); [left | right]; assumption. Qed.

Lemma substring_all s n : String.length s <= n -> substring 0 n s = s.
Proof.
  revert n. induction s as [|a s IH]; intros [|n] H; simpl in *;
    try reflexivity; try lia.
  rewrite IH by lia. reflexivity.
Qed.

Lemma prefix_split t s n :
  prefix t s = true -> String.length s <= n ->
  exists s', s = (t ++ s')%string /\ substring (String.length t) n s = s'.
Proof.
  revert s n. induction t as [|a t IH]; intros s n P L.
  - exists s. split; [reflexivity|]. now apply substring_all.
  - destruct s as [|b s]; [discriminate|]. cbn [prefix] in P.
    destruct (ascii_dec a b) as [<-|]; [|discriminate].
    destruct (IH s n P) as [s' [-> E]]; [simpl in L; lia|].
    exists s'. split; [reflexivity|]. exact E.
Qed.

Lemma run_backref n s m k r :
  run (Backref n) s m k = Some r ->
  exists t s',
    group m n = Some t /\ s = (t ++ s')%string /\ k s' m = Some r.
Proof.
  simpl. destruct (group m n) as [t|]; [|discriminate].
  destruct (prefix t s) eqn:E; [|discriminate].
  destruct (prefix_split t s (String.length s) E (le_n _)) as [s' [-> ->]].
  eauto.
Qed.

Lemma run_eol s m k r :
  run Eol s m k = Some r ->
  (s = EmptyString \/ s = String "010" EmptyString) /\ k s m = Some r.
Proof.
  simpl. destruct s as [|a [|b s]]; try discriminate; auto.
  destruct (Ascii.eqb a "010") eqn:E; [|discriminate].
  apply Ascii.eqb_eq in E. subst. auto.
Qed.

Lemma consumed_one a s : consumed (String a s) s = String a EmptyString.
Proof.
  unfold consumed. cbn [String.length].
  replace (S (String.length s) - String.length s) with 1 by lia.
  simpl. now destruct s.
Qed.

(** One step of reading a successful match backwards. *)
Ltac inv_run H :=
  unfold seqs, digit3, digit in H; cbn [fold_right lits] in H;
  cbv beta in H;
  lazymatch type of H with
  | run (Seq ?a ?b) ?s ?m ?k = ?res =>
      change (run a s m (fun s' m' => run b s' m' k) = res) in H
  | run (Group ?n ?r) ?s ?m ?k = ?res =>
      change (run r s m (fun s' m' => k s' ((n, consumed s s') :: m'))
              = res) in H
  | run Eps ?s ?m ?k = ?res => change (k s m = res) in H; cbv beta in H
  | run (Lit _) _ _ _ = _ =>
      let s' := fresh "s" in
      apply run_lit in H; destruct H as [s' [-> H]]; cbv beta in H
  | run (Class _) _ _ _ = _ =>
      let a := fresh "c" in
      let s' := fresh "s" in
      let Hc := fresh "Hc" in
      apply run_class in H; destruct H as [a [s' [-> [Hc H]]]];
      cbv beta in H
  | run (Alt _ _) _ _ _ = _ => apply run_alt in H; destruct H as [H|H]
  | run (Opt _) _ _ _ = _ => apply run_opt in H; destruct H as [H|H]
  | run (Backref _) _ _ _ = _ =>
      let t := fresh "t" in
      let s' := fresh "s" in
      let G := fresh "Hg" in
      apply run_backref in H; destruct H as [t [s' [G [-> H]]]];
      cbn [group Nat.eqb] in G; try discriminate G;
      try (rewrite consumed_one in G; injection G as <-);
      cbn [append] in *; cbv beta in H
  | run Eol _ _ _ = _ =>
      apply run_eol in H; destruct H as [[->| ->] H]; cbv beta iota in H;
      [|discriminate H]
  end.

Ltac digits3_tac :=
  match goal with
  | |- digits3 _ =>
      do 3 eexists; split; [reflexivity|]; repeat split; eassumption
  end.

(** Every name [coc_RE] matches in full is a single name, a range name
    whose end carries either no rerun letter or the start's, or a
    QC/WP/SP name; groups 2 and 5 are the last three digits of the start
    and the three digits after the dash. *)
Lemma coc_RE_forms i m :
  fullmatch coc_RE i = Some m ->
  (exists hi lo a,
      digits3 hi /\ digits3 lo /\ rerun_suffix a /\
      i = single_name hi lo a /\
      group m 2 = Some lo /\ group m 5 = None) \/
  (exists hi lo a e z,
      digits3 hi /\ digits3 lo /\ rerun_suffix a /\ digits3 e /\
      (z = EmptyString \/ z = a) /\
      i = range_name hi lo a e z /\
      group m 2 = Some lo /\ group m 5 = Some e) \/
  (exists tag d e,
      In tag ["QC"; "WP"; "SP"] /\ digits3 d /\ digits3 e /\
      i = control_name tag d e).
Proof.
  intros H. unfold fullmatch, coc_RE in H.
  repeat inv_run H; injection H as <-.
  - right; left.
    exists (str3 c c0 c1), (str3 c2 c3 c4), (String c5 ""), (str3 c6 c7 c8),
      (String c5 "").
    repeat split; try digits3_tac; auto.
    unfold rerun_suffix. right. eauto.
  - right; left.
    exists (str3 c c0 c1), (str3 c2 c3 c4), (String c5 ""), (str3 c6 c7 c8),
      "".
    repeat split; try digits3_tac; auto.
    unfold rerun_suffix. right. eauto.
  - left.
    exists (str3 c c0 c1), (str3 c2 c3 c4), (String c5 "").
    repeat split; try digits3_tac; auto.
    unfold rerun_suffix. right. eauto.
  - right; left.
    exists (str3 c c0 c1), (str3 c2 c3 c4), "", (str3 c5 c6 c7), "".
    repeat split; try digits3_tac; auto.
    unfold rerun_suffix. now left.
  - left.
    exists (str3 c c0 c1), (str3 c2 c3 c4), "".
    repeat split; try digits3_tac; auto.
    unfold rerun_suffix. now left.
  - right; right. exists "QC", (str3 c c0 c1), (str3 c2 c3 c4).
    repeat split; try digits3_tac; simpl; auto.
  - right; right. exists "WP", (str3 c c0 c1), (str3 c2 c3 c4).
    repeat split; try digits3_tac; simpl; auto.
  - right; right. exists "SP", (str3 c c0 c1), (str3 c2 c3 c4).
    repeat split; try digits3_tac; simpl; auto.
Qed.

(** The names [name_RE] can match, by their parts. *)
Definition numbered_page (hi lo : string) (n : ascii) : string :=
  (hi ++ lo ++ "pg" ++ String n ".pdf")%string.

Definition control_page (tag num last : string) (n : ascii) : string :=
  (tag ++ num ++ "-" ++ last ++ "pg" ++ String n ".pdf")%string.

Lemma name_RE_forms p :
  page_name_ok p = true ->
  (exists hi lo n,
      digits3 hi /\ digits3 lo /\ Py.is_digit n = true /\
      p = numbered_page hi lo n) \/
  (exists tag d e n,
      In tag ["QC"; "WP"; "SP"] /\ digits3 d /\ digits3 e /\
      Py.is_digit n = true /\ p = control_page tag d e n).
Proof.
  unfold page_name_ok. destruct (fullmatch name_RE p) as [m|] eqn:H;
    [intros _ | discriminate].
  unfold fullmatch, name_RE in H.
  repeat inv_run H; injection H as <-.
  - left. exists (str3 c c0 c1), (str3 c2 c3 c4), c5.
    repeat split; try digits3_tac; auto.
  - right. exists "QC", (str3 c c0 c1), (str3 c2 c3 c4), c5.
    repeat split; try digits3_tac; simpl; auto.
  - right. exists "WP", (str3 c c0 c1), (str3 c2 c3 c4), c5.
    repeat split; try digits3_tac; simpl; auto.
  - right. exists "SP", (str3 c c0 c1), (str3 c2 c3 c4), c5.
    repeat split; try digits3_tac; simpl; auto.
Qed.

End Names.

(** ** The range check of name_check *)

Section RangeCheck.

Lemma digit_not_dash c : Py.is_digit c = true -> Ascii.eqb c "-" = false.
Proof.
  intros H. destruct (Ascii.eqb c "-") eqn:E; [|reflexivity].
  apply Ascii.eqb_eq in E. subst. discriminate H.
Qed.

Lemma letter_not_dash l : is_rerun_letter l = true -> Ascii.eqb l "-" = false.
Proof.
  intros H. destruct (Ascii.eqb l "-") eqn:E; [|reflexivity].
  apply Ascii.eqb_eq in E. subst. discriminate H.
Qed.

Lemma int_digits3 s :
  digits3 s -> Py.int s = Some (Py.int_acc 0 s).
Proof.
  intros [a [b [c [-> [Ha [Hb Hc]]]]]].
  unfold Py.int, Py.isnumeric, str3. cbn [Py.all_digits].
  now rewrite Ha, Hb, Hc.
Qed.

Ltac open_digits :=
  repeat match goal with
         | H : digits3 _ |- _ =>
             let a := fresh "d" in
             let b := fresh "d" in
             let c := fresh "d" in
             let Ha := fresh "Hd" in
             let Hb := fresh "Hd" in
             let Hc := fresh "Hd" in
             destruct H as [a [b [c [-> [Ha [Hb Hc]]]]]]
         end.

Ltac no_dash :=
  repeat first
    [ rewrite digit_not_dash by assumption
    | rewrite letter_not_dash by assumption ].

Ltac no_dash_in H :=
  repeat first
    [ rewrite digit_not_dash in H by assumption
    | rewrite letter_not_dash in H by assumption ].

(** The decision of [name_check] on a range name, in terms of the digits
    it reads. *)
Lemma range_check_rule i m :
  fullmatch coc_RE i = Some m ->
  Py.startswith_any i ["QC"; "SP"; "WP"] = false ->
  Py.contains "-" i = true ->
  exists first last,
    Py.int (start_low_digits i) = Some first /\
    Py.int (end_digits i) = Some last /\
    check_one i = (if range_rule first last then Bad else Pass) /\
    (check_one i = Bad <->
     (Z.abs (last - first) = 0
      \/ (last < first /\ Z.abs (last - first) < 100))%Z).
Proof.
  intros H Hq Hd.
  destruct (coc_RE_forms i m H)
    as [[hi [lo [a [Dh [Dl [Ra [-> _]]]]]]]
       |[[hi [lo [a [e [z [Dh [Dl [Ra [De [Hz [-> [G2 G5]]]]]]]]]]]]
        |[tag [d [e [Ht [Dd [De ->]]]]]]]].
  - exfalso. open_digits. unfold single_name, str3 in Hd.
    destruct Ra as [->|[l [Hl ->]]]; cbn in Hd; no_dash_in Hd;
      discriminate Hd.
  - assert (Il := int_digits3 lo Dl). assert (Ie := int_digits3 e De).
    exists (Py.int_acc 0 lo), (Py.int_acc 0 e).
    assert (E1 : start_low_digits (range_name hi lo a e z) = lo).
    { open_digits. destruct Ra as [->|[l [Hl ->]]]; reflexivity. }
    assert (E2 : end_digits (range_name hi lo a e z) = e).
    { open_digits. unfold end_digits, range_name, str3.
      destruct Ra as [->|[l [Hl ->]]]; destruct Hz as [->| ->];
        cbn [append Py.split]; no_dash; cbn; no_dash; reflexivity. }
    rewrite E1, E2. split; [exact Il|]. split; [exact Ie|].
    assert (C : check_one (range_name hi lo a e z)
                = if range_rule (Py.int_acc 0 lo) (Py.int_acc 0 e)
                  then Bad else Pass).
    { unfold check_one. rewrite H, Hq, Hd. unfold group_int.
      rewrite G2, G5, Il, Ie. unfold range_rule.
      destruct (Z.abs (Py.int_acc 0 e - Py.int_acc 0 lo) =? 0)%Z;
        [reflexivity|].
      destruct ((Py.int_acc 0 e <? Py.int_acc 0 lo)
                && (Z.abs (Py.int_acc 0 e - Py.int_acc 0 lo) <? 100))%Z;
        reflexivity. }
    split; [exact C|]. rewrite C. unfold range_rule.
    destruct (Z.eqb_spec (Z.abs (Py.int_acc 0 e - Py.int_acc 0 lo)) 0);
      destruct (Z.ltb_spec (Py.int_acc 0 e) (Py.int_acc 0 lo));
      destruct (Z.ltb_spec (Z.abs (Py.int_acc 0 e - Py.int_acc 0 lo)) 100);
      cbn; split; intros; try discriminate; try reflexivity; try tauto; lia.
  - exfalso. open_digits.
    destruct Ht as [<-|[<-|[<-|[]]]]; discriminate Hq.
Qed.

(** C4, as the code has it.  For every name that [coc_RE] matches, that
    is not a QC/WP/SP name and contains a dash, [name_check] compares
    [first], the number written by the LAST three digits of the six-digit
    start (group 2 of the pattern), with [last], the number written by
    the three digits after the dash; with [diff = |last - first|] the
    name is put on [bad_names] exactly when [diff = 0], or [last < first]
    and [diff < 100], and is passed otherwise. *)
Theorem range_check_compares_low_digits i m :
  fullmatch coc_RE i = Some m ->
  Py.startswith_any i ["QC"; "SP"; "WP"] = false ->
  Py.contains "-" i = true ->
  exists first last,
    Py.int (start_low_digits i) = Some first /\
    Py.int (end_digits i) = Some last /\
    check_one i = (if range_rule first last then Bad else Pass) /\
    (check_one i = Bad <->
     (Z.abs (last - first) = 0
      \/ (last < first /\ Z.abs (last - first) < 100))%Z).
Proof. apply range_check_rule. Qed.

End RangeCheck.

(** ** Report names of the accepted CoC names *)

Section ReportNames.

Lemma class_neq (p : ascii -> bool) c x :
  p c = true -> p x = false -> Ascii.eqb c x = false.
Proof.
  intros Hc Hx. destruct (Ascii.eqb c x) eqn:E; [|reflexivity].
  apply Ascii.eqb_eq in E. congruence.
Qed.

Lemma prefix_coc_second a b s :
  Ascii.eqb b "o" = false -> prefix "coc" (String a (String b s)) = false.
Proof.
  intros H. cbn [prefix]. destruct (ascii_dec "c" a); [|reflexivity].
  destruct (ascii_dec "o" b) as [<-|]; [discriminate H | reflexivity].
Qed.

Lemma replace_skip_step old a s :
  prefix old (String a s) = false ->
  Py.replace_skip old 0 (String a s) = String a (Py.replace_skip old 0 s).
Proof. intros H. cbn [Py.replace_skip]. now rewrite H. Qed.

Lemma length_append (a b : string) :
  String.length (a ++ b) = String.length a + String.length b.
Proof. induction a as [|x a IH]; simpl; [reflexivity | now rewrite IH]. Qed.

Lemma append_cancel_r (a b t : string) :
  (a ++ t = b ++ t)%string -> a = b.
Proof.
  revert b. induction a as [|x a IH]; intros [|y b] H; simpl in H.
  - reflexivity.
  - exfalso. apply (f_equal String.length) in H. simpl in H.
    rewrite length_append in H. lia.
  - exfalso. apply (f_equal String.length) in H. simpl in H.
    rewrite length_append in H. lia.
  - injection H as -> H. f_equal. now apply IH.
Qed.

Ltac char_facts :=
  repeat first
    [ rewrite (class_neq Py.is_digit) by (first [assumption | reflexivity])
    | rewrite (class_neq is_rerun_letter)
        by (first [assumption | reflexivity]) ].

Ltac char_facts_in H :=
  repeat first
    [ rewrite (class_neq Py.is_digit) in H
        by (first [assumption | reflexivity])
    | rewrite (class_neq is_rerun_letter) in H
        by (first [assumption | reflexivity]) ].

Ltac open_forms :=
  repeat match goal with
         | H : digits3 _ |- _ =>
             let a := fresh "d" in
             let b := fresh "d" in
             let c := fresh "d" in
             let Ha := fresh "Hd" in
             let Hb := fresh "Hd" in
             let Hc := fresh "Hd" in
             destruct H as [a [b [c [-> [Ha [Hb Hc]]]]]]
         | H : rerun_suffix _ |- _ =>
             let l := fresh "l" in
             let Hl := fresh "Hl" in
             destruct H as [->|[l [Hl ->]]]
         end.

Ltac step_over :=
  repeat (rewrite replace_skip_step
           by (apply prefix_coc_second;
               first [ reflexivity
                     | apply (class_neq Py.is_digit);
                       [assumption | reflexivity]
                     | apply (class_neq is_rerun_letter);
                       [assumption | reflexivity] ])).

Ltac cut_coc :=
  match goal with
  | |- exists r, ?S = _ /\ _ =>
      let r := eval cbv in (Py.drop_last 7 S) in
      exists r; split; [reflexivity|];
      unfold Py.remove_substring; step_over; reflexivity
  end.

Lemma pass_matches i : check_one i = Pass -> exists m, fullmatch coc_RE i = Some m.
Proof.
  unfold check_one. destruct (fullmatch coc_RE i) as [m|]; [eauto | discriminate].
Qed.

(** A name that passes the check has no slash, ends in [coc.pdf] and
    contains [coc] nowhere else: its report name is the name with that
    one occurrence cut out. *)
Lemma pass_name_facts i :
  check_one i = Pass ->
  Py.contains "/" i = false /\
  exists r, i = (r ++ "coc.pdf")%string /\
            Py.remove_substring "coc" i = (r ++ ".pdf")%string.
Proof.
  intros P. destruct (pass_matches i P) as [m H].
  destruct (coc_RE_forms i m H)
    as [[hi [lo [a [Dh [Dl [Ra [-> _]]]]]]]
       |[[hi [lo [a [e [z [Dh [Dl [Ra [De [Hz [-> _]]]]]]]]]]]
        |[tag [d [e [Ht [Dd [De ->]]]]]]]].
  - open_forms; unfold single_name, str3; cbn [append];
      (split; [cbn; char_facts; cbn; char_facts; reflexivity|]);
      cut_coc.
  - open_forms; destruct Hz as [->|Hz]; try subst z;
      unfold range_name, str3; cbn [append];
      (split; [cbn; char_facts; cbn; char_facts; cbn; char_facts;
               reflexivity|]);
      cut_coc.
  - open_forms.
    destruct Ht as [<-|[<-|[<-|[]]]]; unfold control_name, str3;
      cbn [append];
      (split; [cbn; char_facts; cbn; char_facts; reflexivity|]);
      cut_coc.
Qed.

Lemma pass_report_injective i1 i2 :
  check_one i1 = Pass -> check_one i2 = Pass ->
  Py.remove_substring "coc" i1 = Py.remove_substring "coc" i2 -> i1 = i2.
Proof.
  intros P1 P2 E.
  destruct (pass_name_facts i1 P1) as [_ [r1 [-> R1]]].
  destruct (pass_name_facts i2 P2) as [_ [r2 [-> R2]]].
  rewrite R1, R2 in E. apply append_cancel_r in E. now subst.
Qed.

Lemma coc_path_basename coc_tuple i :
  Py.contains "/" i = false -> Py.basename (coc_path coc_tuple i) = i.
Proof.
  intros H. unfold coc_path. destruct coc_tuple as [[A C] P].
  destruct (Py.mem i A); [|destruct (Py.mem i C)];
    now apply basename_path_join.
Qed.

End ReportNames.

(** ** Expansion of the accepted range names *)

Section Expansion.

Lemma prefix_head_neq a b t s :
  Ascii.eqb b a = false -> prefix (String a t) (String b s) = false.
Proof.
  intros H. cbn [prefix]. destruct (ascii_dec a b) as [->|]; [|reflexivity].
  now rewrite Ascii.eqb_refl in H.
Qed.

Lemma letter_not_digit l : is_rerun_letter l = true -> Py.is_digit l = false.
Proof.
  unfold is_rerun_letter, Py.is_digit. intros H.
  apply andb_true_iff in H as [H1 H2].
  apply Nat.leb_le in H1. apply andb_false_iff. right.
  apply Nat.leb_gt. lia.
Qed.

(** Evaluation of the string tests on names whose characters are known
    by their class only. *)
Ltac crunch :=
  repeat first
    [ rewrite prefix_head_neq
        by (first [ apply (class_neq Py.is_digit); [assumption|reflexivity]
                  | apply (class_neq is_rerun_letter);
                    [assumption|reflexivity]
                  | reflexivity ])
    | rewrite (class_neq Py.is_digit) by (first [assumption | reflexivity])
    | rewrite (class_neq is_rerun_letter)
        by (first [assumption | reflexivity])
    | match goal with
      | H : Py.is_digit ?c = true |- context [Py.is_digit ?c] => rewrite H
      | H : is_rerun_letter ?c = true |- context [Py.is_digit ?c] =>
          rewrite (letter_not_digit c H)
      end
    | progress cbn [Py.contains Py.split existsb orb andb Py.isnumeric
                    Py.all_digits Py.take Py.last_char Py.drop_last
                    String.length Nat.sub substring append
                    Ascii.eqb Bool.eqb] ].

Ltac open_names :=
  repeat match goal with
         | H : digits3 _ |- _ =>
             let a := fresh "d" in
             let b := fresh "d" in
             let c := fresh "d" in
             let Ha := fresh "Hd" in
             let Hb := fresh "Hd" in
             let Hc := fresh "Hd" in
             destruct H as [a [b [c [-> [Ha [Hb Hc]]]]]]
         | H : rerun_suffix _ |- _ =>
             let l := fresh "l" in
             let Hl := fresh "Hl" in
             destruct H as [->|[l [Hl ->]]]
         end.

Lemma append_empty_r (s : string) : (s ++ "")%string = s.
Proof. induction s as [|a s IH]; simpl; [reflexivity | now rewrite IH]. Qed.

(** What [get_ranges] computes for a range name whose two ends carry the
    same rerun suffix (none, or the same letter). *)
Lemma get_ranges_matching_ends hi lo a e :
  digits3 hi -> digits3 lo -> digits3 e -> rerun_suffix a ->
  let first := Py.int_acc 0 (hi ++ lo) in
  let last := Py.int_acc 0 (hi ++ e) in
  get_ranges (range_name hi lo a e a)
  = Some (Py.set (map (fun x => (Py.str x ++ a)%string)
                      (Py.range first (rollover first (last + 1))))).
Proof.
  intros Dh Dl De Ra. open_names;
    unfold get_ranges, range_name, str3, Py.int, Py.startswith_any,
      Py.startswith; crunch.
  - do 2 f_equal. apply map_ext. intros x. now rewrite append_empty_r.
  - reflexivity.
Qed.

Lemma digit_val_bounds c :
  Py.is_digit c = true -> (0 <= Py.digit_val c <= 9)%Z.
Proof.
  unfold Py.is_digit, Py.digit_val. intros H.
  apply andb_true_iff in H as [H1 H2].
  apply Nat.leb_le in H1. apply Nat.leb_le in H2. lia.
Qed.

Lemma int_acc_digits3 acc s :
  digits3 s ->
  Py.int_acc acc s = (acc * 1000 + Py.int_acc 0 s)%Z /\
  (0 <= Py.int_acc 0 s <= 999)%Z.
Proof.
  intros [a [b [c [-> [Ha [Hb Hc]]]]]]. unfold str3. cbn [Py.int_acc].
  pose proof (digit_val_bounds a Ha). pose proof (digit_val_bounds b Hb).
  pose proof (digit_val_bounds c Hc). lia.
Qed.

Lemma int_acc_app acc (s t : string) :
  Py.int_acc acc (s ++ t) = Py.int_acc (Py.int_acc acc s) t.
Proof.
  revert acc. induction s as [|a s IH]; intros acc; simpl;
    [reflexivity | apply IH].
Qed.

Lemma str_injective x y : Py.str x = Py.str y -> x = y.
Proof.
  unfold Py.str. intros H.
  assert (I : forall z, NilZero.int_of_string
                          (NilZero.string_of_int (Z.to_int z))
                        = Some (Z.to_int z)).
  { intros z. apply NilZero.isi; destruct z; simpl; try discriminate;
      intros E; injection E;
      apply DecimalPos.Unsigned.to_uint_nonnil. }
  pose proof (I x) as Ix. rewrite H, I in Ix. injection Ix as E.
  rewrite <- (DecimalZ.of_to x), <- (DecimalZ.of_to y). now rewrite E.
Qed.

Lemma range_In a b x : In x (Py.range a b) <-> (a <= x < b)%Z.
Proof.
  unfold Py.range. rewrite in_map_iff. split.
  - intros [i [<- I]]. apply in_seq in I. lia.
  - intros H. exists (Z.to_nat (x - a)). split; [lia|].
    apply in_seq. lia.
Qed.

Lemma range_NoDup a b : NoDup (Py.range a b).
Proof.
  unfold Py.range. apply Finite.Injective_map_NoDup; [|apply seq_NoDup].
  intros i j H. lia.
Qed.

Lemma range_length a b : List.length (Py.range a b) = Z.to_nat (b - a).
Proof. unfold Py.range. now rewrite length_map, length_seq. Qed.

Lemma set_of_NoDup l : NoDup l -> Py.set l = l.
Proof. apply nodup_fixed_point. Qed.

(** The part of C3 that holds.  For a range name that passes
    [name_check] and whose ends carry the same rerun suffix, let [first]
    be the number written by the six digits of the start, [last] the
    number written by its first three digits followed by the three digits
    of the end, increased by 1000 when it is below [first].  Then
    [get_ranges] returns [last - first + 1] strings, at least two: the
    decimal renderings by [str] of the integers from [first] to [last],
    each followed by the rerun suffix. *)
Lemma get_ranges_size_and_bounds hi lo a e :
  digits3 hi -> digits3 lo -> digits3 e -> rerun_suffix a ->
  check_one (range_name hi lo a e a) = Pass ->
  let first := Py.int_acc 0 (hi ++ lo) in
  let last0 := Py.int_acc 0 (hi ++ e) in
  let last := (if last0 <? first then last0 + 1000 else last0)%Z in
  exists required,
    get_ranges (range_name hi lo a e a) = Some required /\
    Z.of_nat (List.length required) = (last - first + 1)%Z /\
    2 <= List.length required /\
    NoDup required /\
    forall s, In s required <->
              exists x, (first <= x <= last)%Z /\ s = (Py.str x ++ a)%string.
Proof.
  intros Dh Dl De Ra P first last0 last.
  destruct (pass_matches _ P) as [m M].
  assert (Hq : Py.startswith_any (range_name hi lo a e a) ["QC"; "SP"; "WP"]
               = false).
  { clear P M. open_names;
      unfold range_name, str3, Py.startswith_any, Py.startswith; crunch;
      reflexivity. }
  assert (Hd : Py.contains "-" (range_name hi lo a e a) = true).
  { clear P M Hq. open_names; unfold range_name, str3; crunch;
      reflexivity. }
  destruct (range_check_rule _ m M Hq Hd)
    as [f [l [If [Il [C _]]]]].
  assert (Ef : f = Py.int_acc 0 lo /\ l = Py.int_acc 0 e).
  { pose proof (int_digits3 lo Dl) as Jl. pose proof (int_digits3 e De) as Je.
    clear P M Hq Hd C. open_names;
      unfold start_low_digits, end_digits, range_name, str3 in *;
      cbn [append substring] in If; rewrite Jl in If;
      injection If as <-;
      (split; [reflexivity|]);
      revert Il; crunch; rewrite Je;
      intros Il; now injection Il as <-. }
  destruct Ef as [-> ->]. rewrite P in C.
  assert (Rr : range_rule (Py.int_acc 0 lo) (Py.int_acc 0 e) = false)
    by (destruct (range_rule _ _); [discriminate C | reflexivity]).
  clear C If Il Hq Hd M m.
  destruct (int_acc_digits3 (Py.int_acc 0 hi) lo Dl) as [El Bl].
  destruct (int_acc_digits3 (Py.int_acc 0 hi) e De) as [Ee Be].
  assert (F : first = (Py.int_acc 0 hi * 1000 + Py.int_acc 0 lo)%Z)
    by (unfold first; now rewrite int_acc_app).
  assert (L : last0 = (Py.int_acc 0 hi * 1000 + Py.int_acc 0 e)%Z)
    by (unfold last0; now rewrite int_acc_app).
  unfold range_rule in Rr. apply orb_false_iff in Rr as [R0 R1].
  apply Z.eqb_neq in R0.
  assert (U : rollover first (last0 + 1) = (last + 1)%Z /\
              (first < last)%Z).
  { unfold rollover, last.
    destruct (Z.ltb_spec (Py.int_acc 0 e) (Py.int_acc 0 lo)) as [Lt|Ge].
    - cbn [andb] in R1. apply Z.ltb_ge in R1.
      destruct (Z.ltb_spec (last0 + 1) first); [|lia].
      destruct (Z.ltb_spec last0 first); lia.
    - destruct (Z.ltb_spec (last0 + 1) first); [lia|].
      destruct (Z.ltb_spec last0 first); lia. }
  destruct U as [U Lt].
  assert (N : NoDup (map (fun x => (Py.str x ++ a)%string)
                         (Py.range first (last + 1)))).
  { apply Finite.Injective_map_NoDup; [|apply range_NoDup].
    intros x y E. apply append_cancel_r in E. now apply str_injective. }
  eexists. split.
  - rewrite (get_ranges_matching_ends hi lo a e Dh Dl De Ra).
    fold first last0. rewrite U. reflexivity.
  - rewrite (set_of_NoDup _ N), length_map, range_length.
    split; [lia|]. split; [lia|]. split; [exact N|].
    intros s. rewrite in_map_iff. split.
    + intros [x [<- I]]. apply range_In in I. exists x. split; [lia|reflexivity].
    + intros [x [I ->]]. exists x. split; [reflexivity|].
      apply range_In. lia.
Qed.

(** The two string tests of [name_check] and [get_ranges] on the three
    forms. *)
Lemma single_name_tests hi lo a :
  digits3 hi -> digits3 lo -> rerun_suffix a ->
  Py.startswith_any (single_name hi lo a) ["QC"; "SP"; "WP"] = false /\
  Py.contains "-" (single_name hi lo a) = false.
Proof.
  intros Dh Dl Ra.
  open_names; unfold single_name, str3, Py.startswith_any, Py.startswith;
    crunch; split; reflexivity.
Qed.

Lemma range_name_tests hi lo a e z :
  digits3 hi -> digits3 lo -> rerun_suffix a -> digits3 e ->
  z = EmptyString \/ z = a ->
  Py.startswith_any (range_name hi lo a e z) ["QC"; "SP"; "WP"] = false /\
  Py.contains "-" (range_name hi lo a e z) = true.
Proof.
  intros Dh Dl Ra De Hz.
  open_names; destruct Hz as [->| ->];
    unfold range_name, str3, Py.startswith_any, Py.startswith;
    crunch; split; reflexivity.
Qed.

Lemma control_name_tests tag d e :
  In tag ["QC"; "WP"; "SP"] -> digits3 d -> digits3 e ->
  Py.startswith_any (control_name tag d e) ["QC"; "SP"; "WP"] = true /\
  Py.startswith_any (Py.drop_last 7 (control_name tag d e)) ["QC"; "WP"; "SP"]
  = true.
Proof.
  intros Ht Dd De. open_names.
  destruct Ht as [<-|[<-|[<-|[]]]]; split; reflexivity.
Qed.

Lemma range_name_digits hi lo a e z :
  digits3 hi -> digits3 lo -> rerun_suffix a -> digits3 e ->
  z = EmptyString \/ z = a ->
  start_low_digits (range_name hi lo a e z) = lo /\
  end_digits (range_name hi lo a e z) = e.
Proof.
  intros Dh Dl Ra De Hz.
  open_names; destruct Hz as [->| ->];
    unfold start_low_digits, end_digits, range_name, str3;
    crunch; split; reflexivity.
Qed.

(** [get_ranges] on the single and the QC/WP/SP names: the name without
    its [coc.pdf], alone. *)
Lemma get_ranges_single hi lo a :
  digits3 hi -> digits3 lo -> rerun_suffix a ->
  get_ranges (single_name hi lo a) = Some [(hi ++ lo ++ a)%string].
Proof.
  intros Dh Dl Ra.
  open_names; unfold get_ranges, single_name, str3, Py.startswith_any,
    Py.startswith; crunch; reflexivity.
Qed.

Lemma get_ranges_control tag d e :
  In tag ["QC"; "WP"; "SP"] -> digits3 d -> digits3 e ->
  get_ranges (control_name tag d e) = Some [(tag ++ d ++ "-" ++ e)%string].
Proof.
  intros Ht Dd De. open_names.
  destruct Ht as [<-|[<-|[<-|[]]]]; reflexivity.
Qed.

(** [get_ranges] on a range name whose start only carries a rerun letter:
    the end loses its last digit. *)
Lemma get_ranges_letter_on_start hi lo l e :
  digits3 hi -> digits3 lo -> is_rerun_letter l = true -> digits3 e ->
  let first := Py.int_acc 0 (hi ++ lo) in
  let last := Py.int_acc 0 (Py.drop_last 1 (hi ++ e)) in
  get_ranges (range_name hi lo (String l "") e "")
  = Some (Py.set (map (fun x => (Py.str x ++ String l "")%string)
                      (Py.range first (rollover first (last + 1))))).
Proof.
  intros Dh Dl Hl De. open_names.
  unfold get_ranges, range_name, str3, Py.int, Py.startswith_any,
    Py.startswith; crunch. reflexivity.
Qed.

End Expansion.

(** ** The patterns accept every name of their forms *)

Section Grammar.

Lemma digit_not_letter d : Py.is_digit d = true -> is_rerun_letter d = false.
Proof.
  unfold is_rerun_letter, Py.is_digit. intros H.
  apply andb_true_iff in H as [H1 H2].
  apply Nat.leb_le in H2. apply andb_false_iff. left.
  apply Nat.leb_gt. lia.
Qed.

Lemma prefix_one a s : prefix (String a "") (String a s) = true.
Proof.
  cbn [prefix]. destruct (ascii_dec a a); [|congruence]. now destruct s.
Qed.

(** Evaluation of a pattern on a name whose characters are known by
    their class only. *)
Ltac fwd :=
  repeat first
    [ rewrite consumed_one
    | rewrite prefix_one
    | rewrite prefix_head_neq by assumption
    | match goal with
      | H : Py.is_digit ?c = true |- context [Py.is_digit ?c] => rewrite H
      | H : is_rerun_letter ?c = true |- context [is_rerun_letter ?c] =>
          rewrite H
      | H : Py.is_digit ?c = true |- context [is_rerun_letter ?c] =>
          rewrite (digit_not_letter c H)
      | |- context [is_rerun_letter (Ascii ?b0 ?b1 ?b2 ?b3 ?b4 ?b5 ?b6 ?b7)] =>
          let v := eval vm_compute in
                   (is_rerun_letter (Ascii b0 b1 b2 b3 b4 b5 b6 b7)) in
          change (is_rerun_letter (Ascii b0 b1 b2 b3 b4 b5 b6 b7)) with v
      | |- context [Py.is_digit (Ascii ?b0 ?b1 ?b2 ?b3 ?b4 ?b5 ?b6 ?b7)] =>
          let v := eval vm_compute in
                   (Py.is_digit (Ascii b0 b1 b2 b3 b4 b5 b6 b7)) in
          change (Py.is_digit (Ascii b0 b1 b2 b3 b4 b5 b6 b7)) with v
      end
    | rewrite (class_neq Py.is_digit) by (first [assumption | reflexivity])
    | rewrite (class_neq is_rerun_letter)
        by (first [assumption | reflexivity])
    | progress cbn [run fold_right lits group Nat.eqb Ascii.eqb Bool.eqb
                    String.length substring append] ].

Ltac open_parts :=
  repeat match goal with
         | H : digits3 _ |- _ =>
             let a := fresh "d" in
             let b := fresh "d" in
             let c := fresh "d" in
             let Ha := fresh "Hd" in
             let Hb := fresh "Hd" in
             let Hc := fresh "Hd" in
             destruct H as [a [b [c [-> [Ha [Hb Hc]]]]]]
         | H : rerun_suffix _ |- _ =>
             let l := fresh "l" in
             let Hl := fresh "Hl" in
             destruct H as [->|[l [Hl ->]]]
         end.

Ltac start_match :=
  unfold fullmatch, coc_RE, name_RE, seqs, digit3, digit, single_name,
    range_name, control_name, numbered_page, control_page, str3;
  cbn [append].

Lemma single_name_matches hi lo a :
  digits3 hi -> digits3 lo -> rerun_suffix a ->
  fullmatch coc_RE (single_name hi lo a) <> None.
Proof.
  intros Dh Dl Ra. open_parts; start_match; fwd; discriminate.
Qed.

Lemma range_name_matches hi lo a e z :
  digits3 hi -> digits3 lo -> rerun_suffix a -> digits3 e ->
  z = EmptyString \/ z = a ->
  fullmatch coc_RE (range_name hi lo a e z) <> None.
Proof.
  intros Dh Dl Ra De Hz. open_parts; destruct Hz as [->| ->].
  - start_match; fwd; discriminate.
  - start_match; fwd; discriminate.
  - destruct (Ascii.eqb "c" l) eqn:E.
    + apply Ascii.eqb_eq in E. subst l. start_match; fwd; discriminate.
    + start_match; fwd; discriminate.
  - start_match; fwd; discriminate.
Qed.

Lemma control_name_matches tag d e :
  In tag ["QC"; "WP"; "SP"] -> digits3 d -> digits3 e ->
  fullmatch coc_RE (control_name tag d e) <> None.
Proof.
  intros Ht Dd De. open_parts.
  destruct Ht as [<-|[<-|[<-|[]]]]; start_match; fwd; discriminate.
Qed.

Lemma numbered_page_matches hi lo n :
  digits3 hi -> digits3 lo -> Py.is_digit n = true ->
  page_name_ok (numbered_page hi lo n) = true.
Proof.
  intros Dh Dl Hn. open_parts. unfold page_name_ok.
  start_match; fwd; reflexivity.
Qed.

Lemma control_page_matches tag d e n :
  In tag ["QC"; "WP"; "SP"] -> digits3 d -> digits3 e ->
  Py.is_digit n = true ->
  page_name_ok (control_page tag d e n) = true.
Proof.
  intros Ht Dd De Hn. open_parts. unfold page_name_ok.
  destruct Ht as [<-|[<-|[<-|[]]]]; start_match; fwd; reflexivity.
Qed.

End Grammar.

(** ** What the validation accepts *)

Section Validation.

(** The three forms of a CoC name. *)
Definition coc_form (i : string) : Prop :=
  (exists hi lo a,
      digits3 hi /\ digits3 lo /\ rerun_suffix a /\
      i = single_name hi lo a) \/
  (exists hi lo a e z,
      digits3 hi /\ digits3 lo /\ rerun_suffix a /\ digits3 e /\
      (z = EmptyString \/ z = a) /\ i = range_name hi lo a e z) \/
  (exists tag d e,
      In tag ["QC"; "WP"; "SP"] /\ digits3 d /\ digits3 e /\
      i = control_name tag d e).

(** The names that pass the check of [name_check]: every single and
    QC/WP/SP name, and the range names on which the rule does not fire. *)
Definition passing_form (i : string) : Prop :=
  (exists hi lo a,
      digits3 hi /\ digits3 lo /\ rerun_suffix a /\
      i = single_name hi lo a) \/
  (exists hi lo a e z,
      digits3 hi /\ digits3 lo /\ rerun_suffix a /\ digits3 e /\
      (z = EmptyString \/ z = a) /\ i = range_name hi lo a e z /\
      range_rule (Py.int_acc 0 lo) (Py.int_acc 0 e) = false) \/
  (exists tag d e,
      In tag ["QC"; "WP"; "SP"] /\ digits3 d /\ digits3 e /\
      i = control_name tag d e).

Lemma coc_form_matches i : coc_form i -> fullmatch coc_RE i <> None.
Proof.
  intros [[hi [lo [a [Dh [Dl [Ra ->]]]]]]
         |[[hi [lo [a [e [z [Dh [Dl [Ra [De [Hz ->]]]]]]]]]]
          |[tag [d [e [Ht [Dd [De ->]]]]]]]].
  - now apply single_name_matches.
  - now apply range_name_matches.
  - now apply control_name_matches.
Qed.

Lemma matches_coc_form i m : fullmatch coc_RE i = Some m -> coc_form i.
Proof.
  intros H. destruct (coc_RE_forms i m H)
    as [[hi [lo [a [Dh [Dl [Ra [-> _]]]]]]]
       |[[hi [lo [a [e [z [Dh [Dl [Ra [De [Hz [-> _]]]]]]]]]]]
        |[tag [d [e [Ht [Dd [De ->]]]]]]]].
  - left. eauto 10.
  - right; left. exists hi, lo, a, e, z. auto 10.
  - right; right. eauto 10.
Qed.

Lemma check_one_single hi lo a :
  digits3 hi -> digits3 lo -> rerun_suffix a ->
  check_one (single_name hi lo a) = Pass.
Proof.
  intros Dh Dl Ra. unfold check_one.
  destruct (fullmatch coc_RE (single_name hi lo a)) eqn:M;
    [|now apply single_name_matches in M].
  destruct (single_name_tests hi lo a Dh Dl Ra) as [-> ->]. reflexivity.
Qed.

Lemma check_one_control tag d e :
  In tag ["QC"; "WP"; "SP"] -> digits3 d -> digits3 e ->
  check_one (control_name tag d e) = Pass.
Proof.
  intros Ht Dd De. unfold check_one.
  destruct (fullmatch coc_RE (control_name tag d e)) eqn:M;
    [|now apply control_name_matches in M].
  destruct (control_name_tests tag d e Ht Dd De) as [-> _]. reflexivity.
Qed.

Lemma check_one_range hi lo a e z :
  digits3 hi -> digits3 lo -> rerun_suffix a -> digits3 e ->
  z = EmptyString \/ z = a ->
  check_one (range_name hi lo a e z)
  = if range_rule (Py.int_acc 0 lo) (Py.int_acc 0 e) then Bad else Pass.
Proof.
  intros Dh Dl Ra De Hz.
  destruct (fullmatch coc_RE (range_name hi lo a e z)) as [m|] eqn:M;
    [|now apply range_name_matches in M].
  destruct (range_name_tests hi lo a e z Dh Dl Ra De Hz) as [Hq Hd].
  destruct (range_check_rule _ m M Hq Hd) as [f [l [If [Il [C _]]]]].
  destruct (range_name_digits hi lo a e z Dh Dl Ra De Hz) as [E1 E2].
  rewrite E1, (int_digits3 lo Dl) in If. rewrite E2, (int_digits3 e De) in Il.
  injection If as <-. injection Il as <-. exact C.
Qed.

Lemma check_one_passing i : check_one i = Pass <-> passing_form i.
Proof.
  split.
  - intros P. destruct (pass_matches i P) as [m M].
    destruct (coc_RE_forms i m M)
      as [[hi [lo [a [Dh [Dl [Ra [-> _]]]]]]]
         |[[hi [lo [a [e [z [Dh [Dl [Ra [De [Hz [-> _]]]]]]]]]]]
          |[tag [d [e [Ht [Dd [De ->]]]]]]]].
    + left. eauto 10.
    + right; left. exists hi, lo, a, e, z.
      rewrite (check_one_range hi lo a e z) in P by assumption.
      destruct (range_rule _ _); [discriminate P | auto 10].
    + right; right. eauto 10.
  - intros [[hi [lo [a [Dh [Dl [Ra ->]]]]]]
           |[[hi [lo [a [e [z [Dh [Dl [Ra [De [Hz [-> R]]]]]]]]]]]
            |[tag [d [e [Ht [Dd [De ->]]]]]]]].
    + now apply check_one_single.
    + rewrite check_one_range by assumption. now rewrite R.
    + now apply check_one_control.
Qed.

Lemma check_one_no_fault i : check_one i <> Fault.
Proof.
  destruct (fullmatch coc_RE i) as [m|] eqn:M.
  - destruct (coc_RE_forms i m M)
      as [[hi [lo [a [Dh [Dl [Ra [-> _]]]]]]]
         |[[hi [lo [a [e [z [Dh [Dl [Ra [De [Hz [-> _]]]]]]]]]]]
          |[tag [d [e [Ht [Dd [De ->]]]]]]]].
    + rewrite check_one_single by assumption. discriminate.
    + rewrite check_one_range by assumption.
      destruct (range_rule _ _); discriminate.
    + rewrite check_one_control by assumption. discriminate.
  - unfold check_one. rewrite M. discriminate.
Qed.

(** X1.  [coc_RE] matches a name in full exactly when the name is six
    digits with an optional rerun letter followed by [coc.pdf], or such a
    start, a dash, three digits and either nothing or the start's rerun
    letter, followed by [coc.pdf], or one of QC, WP, SP with three
    digits, a dash, three digits and [coc.pdf]. *)
Theorem coc_pattern_accepts_three_forms i :
  fullmatch coc_RE i <> None <-> coc_form i.
Proof.
  split.
  - destruct (fullmatch coc_RE i) as [m|] eqn:M; [|congruence].
    intros _. eapply matches_coc_form; exact M.
  - apply coc_form_matches.
Qed.

(** X2.  [name_RE] matches a page name in full exactly when the name is
    six digits, [pg], one digit and [.pdf], or one of QC, WP, SP with
    three digits, a dash, three digits, [pg], one digit and [.pdf]. *)
Theorem page_pattern_accepts_two_forms p :
  page_name_ok p = true <->
  (exists hi lo n,
      digits3 hi /\ digits3 lo /\ Py.is_digit n = true /\
      p = numbered_page hi lo n) \/
  (exists tag d e n,
      In tag ["QC"; "WP"; "SP"] /\ digits3 d /\ digits3 e /\
      Py.is_digit n = true /\ p = control_page tag d e n).
Proof.
  split; [apply name_RE_forms|].
  intros [[hi [lo [n [Dh [Dl [Hn ->]]]]]]
         |[tag [d [e [n [Ht [Dd [De [Hn ->]]]]]]]]].
  - now apply numbered_page_matches.
  - now apply control_page_matches.
Qed.

(** X3.  The body of the loop of [name_check] never raises (the two
    groups it converts are digits whenever it reads them), and it passes
    a name exactly when the name is a single name, a QC/WP/SP name, or a
    range name for which, [first] being the number of the last three
    digits of the start and [last] the number of the three digits after
    the dash, neither [last = first] nor [last < first] with a difference
    below 100 holds. *)
Theorem check_passes_by_form i :
  check_one i <> Fault /\ (check_one i = Pass <-> passing_form i).
Proof. split; [apply check_one_no_fault | apply check_one_passing]. Qed.

Lemma bad_names_of_total coc_list :
  bad_names_of coc_list
  = Some (filter (fun i => match check_one i with
                           | Pass => false
                           | _ => true
                           end) coc_list).
Proof.
  induction coc_list as [|i rest IH]; [reflexivity|].
  cbn [bad_names_of filter]. rewrite IH.
  pose proof (check_one_no_fault i) as N.
  destruct (check_one i); [reflexivity | reflexivity | congruence].
Qed.

(** X4.  [name_check] returns for every listing of its directories: the
    second component is the gathered list of names, and the first is
    [None] exactly when every gathered name passes, and otherwise the
    gathered names that do not pass, in their order. *)
Theorem name_check_returns listings :
  exists bad_names,
    name_check listings = Some (bad_names, gather listings) /\
    (bad_names = None <->
     forall i, In i (gather listings) -> check_one i = Pass) /\
    (forall bad, bad_names = Some bad ->
                 bad <> [] /\
                 bad = filter (fun i => match check_one i with
                                        | Pass => false
                                        | _ => true
                                        end) (gather listings)).
Proof.
  unfold name_check. rewrite bad_names_of_total.
  set (f := fun i => match check_one i with Pass => false | _ => true end).
  destruct (filter f (gather listings)) as [|b bad] eqn:F.
  - exists None. split; [reflexivity|]. split; [|discriminate].
    split; [intros _ | reflexivity].
    intros i I. destruct (check_one i) eqn:C; [reflexivity| |].
    + assert (X : In i (filter f (gather listings))).
      { apply filter_In. split; [exact I|]. unfold f. now rewrite C. }
      rewrite F in X. destruct X.
    + assert (X : In i (filter f (gather listings))).
      { apply filter_In. split; [exact I|]. unfold f. now rewrite C. }
      rewrite F in X. destruct X.
  - exists (Some (b :: bad)). split; [reflexivity|]. split.
    + split; [discriminate|]. intros H. exfalso.
      assert (X : In b (filter f (gather listings))) by (rewrite F; now left).
      apply filter_In in X as [I Fb]. unfold f in Fb.
      rewrite (H b I) in Fb. discriminate.
    + intros bad' E. injection E as <-. split; [discriminate|reflexivity].
Qed.

Lemma substring_0_app (r t : string) :
  substring 0 (String.length r) (r ++ t) = r.
Proof.
  induction r as [|a r IH]; simpl; [now destruct t | now rewrite IH].
Qed.

Lemma drop_last_app (r t : string) :
  Py.drop_last (String.length t) (r ++ t) = r.
Proof.
  unfold Py.drop_last. rewrite length_append, Nat.add_sub.
  apply substring_0_app.
Qed.

Lemma pass_stem i :
  check_one i = Pass ->
  i = (Py.drop_last 7 i ++ "coc.pdf")%string /\
  Py.remove_substring "coc" i = (Py.drop_last 7 i ++ ".pdf")%string /\
  Py.contains "/" i = false.
Proof.
  intros P. destruct (pass_name_facts i P) as [S [r [E R]]].
  assert (D : Py.drop_last 7 i = r).
  { rewrite E. exact (drop_last_app r "coc.pdf"). }
  rewrite D. auto.
Qed.

Lemma page_stem p :
  page_name_ok p = true ->
  exists n,
    Py.is_digit n = true /\
    p = (page_prefix p ++ "pg" ++ String n ".pdf")%string /\
    ((exists hi lo, digits3 hi /\ digits3 lo /\
                    page_prefix p = (hi ++ lo)%string) \/
     (exists tag d e, In tag ["QC"; "WP"; "SP"] /\ digits3 d /\ digits3 e /\
                      page_prefix p = (tag ++ d ++ "-" ++ e)%string)).
Proof.
  intros H. apply name_RE_forms in H.
  destruct H as [[hi [lo [n [Dh [Dl [Hn ->]]]]]]
                |[tag [d [e [n [Ht [Dd [De [Hn ->]]]]]]]]]; exists n.
  - assert (E : page_prefix (numbered_page hi lo n) = (hi ++ lo)%string).
    { destruct Dh as [a [b [c [-> _]]]]. destruct Dl as [a' [b' [c' [-> _]]]].
      reflexivity. }
    split; [exact Hn|]. split.
    + rewrite E. unfold numbered_page. now rewrite append_assoc.
    + left. exists hi, lo. rewrite E. auto.
  - assert (E : page_prefix (control_page tag d e n)
                = (tag ++ d ++ "-" ++ e)%string).
    { destruct Dd as [a [b [c [-> _]]]]. destruct De as [a' [b' [c' [-> _]]]].
      destruct Ht as [<-|[<-|[<-|[]]]]; reflexivity. }
    split; [exact Hn|]. split.
    + rewrite E. unfold control_page. now rewrite !append_assoc.
    + right. exists tag, d, e. rewrite E. auto.
Qed.

(** X5.  The fixed slices cut exactly the suffix of an accepted name.  A
    page name that [strip_chars] accepts is its [[:-7]] prefix followed by
    [pg], one digit and [.pdf], and that prefix is six digits or a
    QC/WP/SP identifier.  A CoC name that passes [name_check] is its
    [[:-7]] prefix followed by [coc.pdf]; removing [coc] from it leaves
    that prefix followed by [.pdf]; and it contains no slash. *)
Theorem slices_cut_the_suffix :
  (forall p,
      page_name_ok p = true ->
      exists n,
        Py.is_digit n = true /\
        p = (page_prefix p ++ "pg" ++ String n ".pdf")%string /\
        ((exists hi lo, digits3 hi /\ digits3 lo /\
                        page_prefix p = (hi ++ lo)%string) \/
         (exists tag d e,
             In tag ["QC"; "WP"; "SP"] /\ digits3 d /\ digits3 e /\
             page_prefix p = (tag ++ d ++ "-" ++ e)%string))) /\
  (forall i,
      check_one i = Pass ->
      i = (Py.drop_last 7 i ++ "coc.pdf")%string /\
      Py.remove_substring "coc" i = (Py.drop_last 7 i ++ ".pdf")%string /\
      Py.contains "/" i = false).
Proof. split; [apply page_stem | apply pass_stem]. Qed.

(** X6.  Two CoC names that pass [name_check] and give the same report
    name are the same name, and the report name derived from the path
    that [find_coc] builds for such a name is the report name of the name
    itself. *)
Theorem report_name_identifies_coc_name coc_tuple i1 i2 :
  check_one i1 = Pass -> check_one i2 = Pass ->
  report_name_of (coc_path coc_tuple i1) = Py.remove_substring "coc" i1 /\
  (report_name_of (coc_path coc_tuple i1)
   = report_name_of (coc_path coc_tuple i2) -> i1 = i2).
Proof.
  intros P1 P2.
  destruct (pass_name_facts i1 P1) as [S1 _].
  destruct (pass_name_facts i2 P2) as [S2 _].
  unfold report_name_of. rewrite !coc_path_basename by assumption.
  split; [reflexivity|]. now apply pass_report_injective.
Qed.

Lemma get_ranges_passing i :
  check_one i = Pass ->
  exists required,
    get_ranges i = Some required /\
    NoDup required /\
    (Py.contains "-" i = false
     \/ Py.startswith_any i ["QC"; "SP"; "WP"] = true ->
     required = [Py.drop_last 7 i]).
Proof.
  intros P.
  assert (N : forall r, get_ranges i = Some r -> NoDup r).
  { intros r. apply get_ranges_NoDup. }
  apply check_one_passing in P.
  destruct P as [[hi [lo [a [Dh [Dl [Ra ->]]]]]]
                |[[hi [lo [a [e [z [Dh [Dl [Ra [De [Hz [-> R]]]]]]]]]]]
                 |[tag [d [e [Ht [Dd [De ->]]]]]]]].
  - eexists. split; [now apply get_ranges_single|].
    split; [apply N; now apply get_ranges_single|]. intros _.
    destruct Dh as [x [y [w [-> _]]]]. destruct Dl as [x' [y' [w' [-> _]]]].
    destruct Ra as [->|[l [_ ->]]]; reflexivity.
  - destruct (range_name_tests hi lo a e z Dh Dl Ra De Hz) as [Hq Hd].
    assert (G : exists required,
               get_ranges (range_name hi lo a e z) = Some required).
    { destruct Hz as [->| ->].
      - destruct Ra as [->|[l [Hl ->]]].
        + eexists. now apply (get_ranges_matching_ends hi lo "" e);
            try assumption; left.
        + eexists. now apply get_ranges_letter_on_start.
      - eexists. now apply get_ranges_matching_ends. }
    destruct G as [required G]. exists required.
    split; [exact G|]. split; [now apply N|].
    rewrite Hq, Hd. intros [X|X]; discriminate X.
  - eexists. split; [now apply get_ranges_control|].
    split; [apply N; now apply get_ranges_control|]. intros _.
    destruct Dd as [x [y [w [-> _]]]]. destruct De as [x' [y' [w' [-> _]]]].
    destruct Ht as [<-|[<-|[<-|[]]]]; reflexivity.
Qed.

(** X7.  For every CoC name that passes [name_check], [get_ranges]
    returns (no [ValueError]) a set without repetition; for a name
    without a dash and for a QC/WP/SP name the set is the name without
    its [coc.pdf], alone: such a name is never expanded into a range. *)
Theorem get_ranges_returns_on_passing_names i :
  check_one i = Pass ->
  exists required,
    get_ranges i = Some required /\
    NoDup required /\
    (Py.contains "-" i = false
     \/ Py.startswith_any i ["QC"; "SP"; "WP"] = true ->
     required = [Py.drop_last 7 i]).
Proof. apply get_ranges_passing. Qed.

(** X8.  For a range name that passes [name_check] and whose two ends
    carry the same rerun suffix (none, or the same letter): with [first]
    the number written by the six digits of the start and [last] the
    number written by its first three digits followed by the three digits
    of the end, plus 1000 when that is below [first], [get_ranges]
    returns [last - first + 1] different strings, at least two, namely
    [str(x)] followed by the suffix for every integer [x] from [first] to
    [last]. *)
Theorem range_expansion_size_and_members hi lo a e :
  digits3 hi -> digits3 lo -> digits3 e -> rerun_suffix a ->
  check_one (range_name hi lo a e a) = Pass ->
  let first := Py.int_acc 0 (hi ++ lo) in
  let last0 := Py.int_acc 0 (hi ++ e) in
  let last := (if last0 <? first then last0 + 1000 else last0)%Z in
  exists required,
    get_ranges (range_name hi lo a e a) = Some required /\
    Z.of_nat (List.length required) = (last - first + 1)%Z /\
    2 <= List.length required /\
    NoDup required /\
    forall s, In s required <->
              exists x, (first <= x <= last)%Z /\ s = (Py.str x ++ a)%string.
Proof. apply get_ranges_size_and_bounds. Qed.

End Validation.

(** ** Progress and the shape of one step *)

Section Progress.

(** Every page of the stack that locates a CoC starts with one of the ids
    the CoC requires. *)
Definition covered (coc_list : list string) (coc_tuple : coc_sets)
           (stack : list string) : Prop :=
  forall p path required,
    In p stack ->
    find_coc coc_list coc_tuple p = Some path ->
    get_ranges (Py.basename path) = Some required ->
    exists j, In j required /\ Py.startswith p j = true.

Lemma covered_subset coc_list coc_tuple stack stack' :
  (forall k, In k stack' -> In k stack) ->
  covered coc_list coc_tuple stack -> covered coc_list coc_tuple stack'.
Proof. intros Sub C p path required I. apply C. now apply Sub. Qed.

Lemma collect_shrinks p rest path name b stack' :
  (exists required j,
      get_ranges (Py.basename path) = Some required /\
      In j required /\ Py.startswith p j = true) ->
  collect path (p :: rest) = Some (name, b, stack') ->
  List.length stack' <= List.length rest.
Proof.
  intros [required [j [G [Ij Sj]]]] C.
  destruct (collect_inv _ _ _ _ _ C)
    as [required' [missing [G' [_ [_ [_ R]]]]]].
  rewrite G in G'. injection G' as <-.
  assert (I : In p (match_pages (set_order required) (p :: rest))).
  { apply match_pages_In. split; [now left|]. exists j. split; [|exact Sj].
    eapply Permutation_in; [symmetry; apply set_order_perm | exact Ij]. }
  apply remove_each_perm in R. apply Permutation_length in R.
  rewrite length_app in R. cbn [List.length] in R.
  destruct (match_pages (set_order required) (p :: rest)); [destruct I|].
  cbn [List.length] in R. lia.
Qed.

Lemma covered_drain_ends coc_list coc_tuple :
  forall fuel s,
    covered coc_list coc_tuple (pdf_stack s) ->
    List.length (pdf_stack s) <= fuel ->
    drain fuel coc_list coc_tuple s <> Exhausted.
Proof.
  induction fuel as [|n IH]; intros s Cv L.
  - simpl. destruct (pdf_stack s); [discriminate | simpl in L; lia].
  - destruct (pdf_stack s) as [|p rest] eqn:Es.
    + simpl. rewrite Es. discriminate.
    + rewrite drain_step with (p := p) (rest := rest) by exact Es.
      unfold iteration. rewrite Es.
      destruct (find_coc coc_list coc_tuple p) as [path|] eqn:F.
      * destruct (collect path (p :: rest)) as [[[name b] stack']|] eqn:C;
          [|discriminate].
        apply IH; cbn [pdf_stack].
        -- eapply covered_subset; [|exact Cv].
           intros k Ik. apply collect_perm in C.
           eapply Permutation_in; [symmetry; exact C|].
           apply in_or_app. now right.
        -- destruct (collect_inv _ _ _ _ _ C)
             as [required [missing [G _]]].
           destruct (Cv p path required (or_introl eq_refl) F G)
             as [j [Ij Sj]].
           assert (Sh : List.length stack' <= List.length rest).
           { eapply collect_shrinks; [|exact C]. eauto. }
           simpl in L. lia.
      * apply IH; cbn [pdf_stack].
        -- eapply covered_subset; [|exact Cv]. intros k Ik. now right.
        -- simpl in L. lia.
Qed.

(** X9.  When every page of the stack that locates a CoC starts with one
    of the ids that CoC requires, the loop ends within as many iterations
    as the stack has pages (by returning, or by an exception): each
    iteration then takes at least the peeked page off the stack. *)
Theorem covered_stack_is_drained
        coc_list coc_tuple missing stack report :
  covered coc_list coc_tuple stack ->
  aggregator (List.length stack) coc_list coc_tuple missing stack report
  <> Exhausted.
Proof.
  intros Cv. unfold aggregator. apply covered_drain_ends; [exact Cv|].
  cbn [pdf_stack]. lia.
Qed.

Lemma remove_each_app a b l :
  remove_each (a ++ b) l
  = match remove_each a l with
    | Some l' => remove_each b l'
    | None => None
    end.
Proof.
  revert l. induction a as [|x a IH]; intros l; simpl; [reflexivity|].
  destruct (Py.remove x l); [apply IH | reflexivity].
Qed.

Lemma remove_each_skip ms x l :
  ~ In x ms ->
  remove_each ms (x :: l) = option_map (cons x) (remove_each ms l).
Proof.
  revert l. induction ms as [|y ms IH]; intros l N; simpl; [reflexivity|].
  destruct (String.eqb_spec x y) as [->|D].
  - exfalso. apply N. now left.
  - destruct (Py.remove y l) as [l'|]; simpl; [|reflexivity].
    apply IH. intros I. apply N. now right.
Qed.

Lemma remove_each_filter (f : string -> bool) l :
  remove_each (filter f l) l = Some (filter (fun k => negb (f k)) l).
Proof.
  induction l as [|x l IH]; simpl; [reflexivity|].
  destruct (f x) eqn:Fx; simpl.
  - rewrite String.eqb_refl. exact IH.
  - rewrite remove_each_skip, IH; [reflexivity|].
    intros I. apply filter_In in I as [_ Fx']. congruence.
Qed.

Lemma same_length_prefixes j j' k :
  Py.startswith k j = true -> Py.startswith k j' = true ->
  String.length j = String.length j' -> j = j'.
Proof.
  unfold Py.startswith. intros H H' L.
  apply prefix_length_eq in H. apply prefix_length_eq in H'.
  rewrite <- H, <- H', L. reflexivity.
Qed.

Lemma filter_filter_disjoint (f g : string -> bool) l :
  (forall k, f k = true -> g k = false) ->
  filter f (filter (fun k => negb (g k)) l) = filter f l.
Proof.
  intros D. induction l as [|x l IH]; simpl; [reflexivity|].
  destruct (g x) eqn:Gx; simpl.
  - destruct (f x) eqn:Fx; [|exact IH]. apply D in Fx. congruence.
  - destruct (f x); now rewrite IH.
Qed.

Lemma match_pages_after_filter j required stack :
  (forall j' k, In j' required -> Py.startswith k j' = true ->
                Py.startswith k j = false) ->
  match_pages required (filter (fun k => negb (Py.startswith k j)) stack)
  = match_pages required stack.
Proof.
  intros D. unfold match_pages.
  induction required as [|j' required IH]; simpl; [reflexivity|].
  rewrite IH by (intros; eapply D; eauto; now right).
  f_equal. apply (filter_filter_disjoint (fun k => Py.startswith k j')).
  intros k. apply D. now left.
Qed.

Lemma filter_negb_orb (f g : string -> bool) l :
  filter (fun k => negb (g k)) (filter (fun k => negb (f k)) l)
  = filter (fun k => negb (f k || g k)) l.
Proof.
  induction l as [|x l IH]; simpl; [reflexivity|].
  destruct (f x); simpl; [exact IH|].
  destruct (g x); simpl; now rewrite IH.
Qed.

Lemma filter_split (f : string -> bool) l :
  Permutation l (filter f l ++ filter (fun k => negb (f k)) l).
Proof.
  induction l as [|x l IH]; simpl; [reflexivity|].
  destruct (f x); simpl.
  - now constructor.
  - now apply Permutation_cons_app.
Qed.

(** The pages that start with none of the ids, in the order of the
    stack. *)
Definition unmatched (required stack : list string) : list string :=
  filter (fun k => negb (existsb (Py.startswith k) required)) stack.

Lemma remove_matched_same_length required :
  NoDup required ->
  (forall j j', In j required -> In j' required ->
                String.length j = String.length j') ->
  forall stack,
    remove_each (match_pages required stack) stack
    = Some (unmatched required stack).
Proof.
  unfold unmatched.
  induction required as [|j required IH]; intros N L stack.
  - simpl. f_equal. induction stack as [|x l IHl]; simpl;
      [reflexivity | now rewrite <- IHl].
  - inversion N as [|? ? Nj Nr]; subst.
    change (match_pages (j :: required) stack)
      with (filter (fun k => Py.startswith k j) stack
            ++ match_pages required stack).
    rewrite remove_each_app, (remove_each_filter (fun k => Py.startswith k j)).
    rewrite <- (match_pages_after_filter j required stack).
    + rewrite IH; [|exact Nr | intros; apply L; now right].
      f_equal. cbn [existsb].
      apply (filter_negb_orb (fun k => Py.startswith k j)).
    + intros j' k Ij' S'.
      destruct (Py.startswith k j) eqn:S; [|reflexivity]. exfalso.
      apply Nj. rewrite (same_length_prefixes j j' k S S'); [exact Ij'|].
      apply L; [now left | now right].
Qed.

(** X10.  When the ids a CoC requires all have the same length, the step
    that builds its bundle never raises: the bundle holds, in ascending
    order, the pages of the stack that start with one of the ids, and the
    stack keeps the other pages in their order. *)
Theorem step_with_ids_of_one_length coc stack required :
  get_ranges (Py.basename coc) = Some required ->
  (forall j j', In j required -> In j' required ->
                String.length j = String.length j') ->
  exists name b,
    collect coc stack = Some (name, b, unmatched required stack) /\
    name = report_name_of coc /\
    Permutation (pdfs b)
                (filter (fun k => existsb (Py.startswith k) required) stack) /\
    StronglySorted str_le (pdfs b).
Proof.
  intros G L.
  assert (N : NoDup required) by (eapply get_ranges_NoDup; exact G).
  assert (Pm : Permutation (match_pages (set_order required) stack)
                           (match_pages required stack))
    by apply match_pages_perm, set_order_perm.
  assert (R : remove_each (match_pages (set_order required) stack) stack
              = Some (unmatched required stack)).
  { pose proof (remove_matched_same_length required N L stack) as R0.
    destruct (remove_each (match_pages (set_order required) stack) stack)
      as [st|] eqn:E.
    - f_equal.
      assert (U : unmatched (set_order required) stack
                  = unmatched required stack).
      { unfold unmatched. apply filter_ext. intros k. f_equal.
        apply eq_true_iff_eq. rewrite !existsb_exists.
        split; intros [j [Ij S]]; exists j; (split; [|exact S]);
          eapply Permutation_in; try exact Ij;
          [apply set_order_perm | symmetry; apply set_order_perm]. }
      rewrite <- U.
      rewrite remove_matched_same_length in E.
      + now injection E.
      + eapply Permutation_NoDup; [symmetry; apply set_order_perm|exact N].
      + intros j j' Ij Ij'. apply L;
          (eapply Permutation_in; [apply set_order_perm|eassumption]).
    - exfalso. rewrite remove_matched_same_length in E; [discriminate E| |].
      + eapply Permutation_NoDup; [symmetry; apply set_order_perm|exact N].
      + intros j j' Ij Ij'. apply L;
          (eapply Permutation_in; [apply set_order_perm|eassumption]). }
  assert (Pf : Permutation
                 (match_pages (set_order required) stack)
                 (filter (fun k => existsb (Py.startswith k) required) stack)).
  { apply remove_each_perm in R.
    eapply Permutation_app_inv_r. rewrite <- R.
    apply filter_split. }
  unfold collect, backcheck. rewrite G.
  destruct (Py.issubset required _); cbv beta iota; rewrite R;
    eexists; eexists; (split; [reflexivity|]); (split; [reflexivity|]);
    cbn [pdfs]; (split; [|apply sort_sorted]);
    now rewrite sort_perm.
Qed.

End Progress.

(** ** A second call on the same inputs *)

Section Rerun.

Definition with_dict (s : state) (d : dict) : state :=
  {| missing_coc_list := missing_coc_list s;
     pdf_stack := pdf_stack s;
     report_dict := d |}.

Lemma emission_with_dict coc_list coc_tuple s d :
  emission coc_list coc_tuple (with_dict s d) = emission coc_list coc_tuple s.
Proof. reflexivity. Qed.

Lemma iteration_with_dict coc_list coc_tuple s d :
  iteration coc_list coc_tuple (with_dict s d)
  = match iteration coc_list coc_tuple s with
    | None => None
    | Some s1 =>
        Some (with_dict s1 (assign_all d (emission coc_list coc_tuple s)))
    end.
Proof.
  destruct s as [m st rd]. unfold iteration, emission, with_dict.
  cbn [pdf_stack missing_coc_list report_dict].
  destruct st as [|p rest]; [reflexivity|].
  destruct (find_coc coc_list coc_tuple p) as [path|]; [|reflexivity].
  destruct (collect path (p :: rest)) as [[[name b] stack']|]; reflexivity.
Qed.

(** The dictionary a run starts from changes nothing but the dictionary
    it returns. *)
Lemma drain_with_dict coc_list coc_tuple :
  forall fuel s d,
    emitted fuel coc_list coc_tuple (with_dict s d)
    = emitted fuel coc_list coc_tuple s /\
    drain fuel coc_list coc_tuple (with_dict s d)
    = match drain fuel coc_list coc_tuple s with
      | Returned m _ =>
          Returned m (assign_all d (emitted fuel coc_list coc_tuple s))
      | other => other
      end.
Proof.
  induction fuel as [|n IH]; intros s d.
  - split; [reflexivity|]. simpl. destruct (pdf_stack s); reflexivity.
  - cbn [emitted drain]. rewrite iteration_with_dict, emission_with_dict.
    cbn [with_dict pdf_stack missing_coc_list].
    destruct (pdf_stack s) as [|p rest] eqn:Es.
    + rewrite iteration_empty by exact Es.
      rewrite emission_empty by exact Es. cbn [assign_all fold_left app].
      destruct (IH s d) as [E _]. fold (with_dict s d).
      rewrite E, emitted_empty by exact Es. split; reflexivity.
    + destruct (iteration coc_list coc_tuple s) as [s1|]; [|now split].
      destruct (IH s1 (assign_all d (emission coc_list coc_tuple s)))
        as [E D].
      rewrite E, D. split; [reflexivity|].
      destruct (drain n coc_list coc_tuple s1); try reflexivity.
      unfold assign_all. now rewrite fold_left_app.
Qed.

Lemma dict_get_set d k v k' :
  dict_get (dict_set d k v) k'
  = if String.eqb k k' then Some v else dict_get d k'.
Proof.
  induction d as [|[k0 v0] d IH]; simpl.
  - destruct (String.eqb k k'); reflexivity.
  - destruct (String.eqb_spec k0 k) as [->|N]; simpl.
    + destruct (String.eqb k k'); reflexivity.
    + rewrite IH. destruct (String.eqb_spec k0 k') as [->|N'];
        [|reflexivity].
      destruct (String.eqb_spec k k'); [congruence | reflexivity].
Qed.

Lemma dict_set_keys d k v :
  map fst (dict_set d k v)
  = if Py.mem k (map fst d) then map fst d else map fst d ++ [k].
Proof.
  induction d as [|[k0 v0] d IH]; [reflexivity|].
  cbn [dict_set map fst]. unfold Py.mem in *. cbn [existsb].
  destruct (String.eqb_spec k0 k) as [->|N].
  - now rewrite String.eqb_refl.
  - assert (E : String.eqb k k0 = false) by (apply String.eqb_neq; congruence).
    rewrite E. cbn [map fst orb]. rewrite IH.
    destruct (existsb (String.eqb k) (map fst d)); reflexivity.
Qed.

Lemma dict_set_keys_NoDup d k v :
  NoDup (map fst d) -> NoDup (map fst (dict_set d k v)).
Proof.
  intros N. rewrite dict_set_keys.
  destruct (Py.mem k (map fst d)) eqn:M; [exact N|].
  apply mem_false in M. apply NoDup_app; auto.
  - repeat constructor. intros [].
  - intros x Ix [<-|[]]. contradiction.
Qed.

(** The value last assigned to a key by a sequence of assignments. *)
Fixpoint last_assigned (bundles : list (string * bundle)) (k : string)
  : option bundle :=
  match bundles with
  | [] => None
  | (k0, v0) :: rest =>
      match last_assigned rest k with
      | Some v => Some v
      | None => if String.eqb k0 k then Some v0 else None
      end
  end.

Lemma assign_all_get bundles :
  forall d k,
    dict_get (assign_all d bundles) k
    = match last_assigned bundles k with
      | Some v => Some v
      | None => dict_get d k
      end.
Proof.
  unfold assign_all.
  induction bundles as [|[k0 v0] rest IH]; intros d k; simpl;
    [reflexivity|].
  rewrite IH, dict_get_set.
  destruct (last_assigned rest k); [reflexivity|].
  destruct (String.eqb k0 k); reflexivity.
Qed.

Lemma assign_all_keys_NoDup bundles :
  forall d, NoDup (map fst d) -> NoDup (map fst (assign_all d bundles)).
Proof.
  unfold assign_all.
  induction bundles as [|[k v] rest IH]; intros d N; simpl; [exact N|].
  apply IH. now apply dict_set_keys_NoDup.
Qed.

Lemma assign_all_keeps_keys bundles :
  forall d k, In k (map fst d) -> In k (map fst (assign_all d bundles)).
Proof.
  unfold assign_all.
  induction bundles as [|[k0 v0] rest IH]; intros d k I; simpl; [exact I|].
  apply IH. rewrite dict_set_keys.
  destruct (Py.mem k0 (map fst d)); [exact I|].
  apply in_or_app. now left.
Qed.

Lemma assign_all_has_keys bundles :
  forall d k, In k (map fst bundles) -> In k (map fst (assign_all d bundles)).
Proof.
  induction bundles as [|[k0 v0] rest IH]; intros d k; simpl; [intros []|].
  intros [<-|I].
  - apply (assign_all_keeps_keys rest). rewrite dict_set_keys.
    destruct (Py.mem k0 (map fst d)) eqn:M.
    + now apply mem_In.
    + apply in_or_app. right. now left.
  - now apply IH.
Qed.

Lemma assign_all_same_keys bundles :
  forall d,
    (forall k, In k (map fst bundles) -> In k (map fst d)) ->
    map fst (assign_all d bundles) = map fst d.
Proof.
  unfold assign_all.
  induction bundles as [|[k v] rest IH]; intros d H; simpl; [reflexivity|].
  assert (M : Py.mem k (map fst d) = true).
  { apply mem_In. apply H. now left. }
  rewrite IH.
  - now rewrite dict_set_keys, M.
  - intros k' I. rewrite dict_set_keys, M. apply H. now right.
Qed.

Lemma dict_get_absent d k : ~ In k (map fst d) -> dict_get d k = None.
Proof.
  induction d as [|[k0 v0] d IH]; simpl; [reflexivity|].
  intros N. destruct (String.eqb_spec k0 k) as [->|_].
  - exfalso. apply N. now left.
  - apply IH. intros I. apply N. now right.
Qed.

(** Two dictionaries with the same keys in the same order and the same
    value under each key are the same dictionary. *)
Lemma dict_ext d1 :
  forall d2,
    NoDup (map fst d1) ->
    map fst d1 = map fst d2 ->
    (forall k, dict_get d1 k = dict_get d2 k) ->
    d1 = d2.
Proof.
  induction d1 as [|[k1 v1] d1 IH]; intros [|[k2 v2] d2] N K G;
    try discriminate K; [reflexivity|].
  simpl in K. injection K as <- K.
  inversion N as [|? ? Nk Nd]; subst.
  pose proof (G k1) as G1. simpl in G1. rewrite String.eqb_refl in G1.
  injection G1 as <-. f_equal. apply IH; [exact Nd | exact K|].
  intros k. specialize (G k). simpl in G.
  destruct (String.eqb_spec k1 k) as [E|_]; [|exact G].
  rewrite <- E. rewrite (dict_get_absent d1 k1 Nk).
  rewrite K in Nk. now rewrite (dict_get_absent d2 k1 Nk).
Qed.

Lemma assign_all_twice d bundles :
  NoDup (map fst d) ->
  assign_all (assign_all d bundles) bundles = assign_all d bundles.
Proof.
  intros N. apply dict_ext.
  - now apply assign_all_keys_NoDup, assign_all_keys_NoDup.
  - apply assign_all_same_keys. intros k. apply assign_all_has_keys.
  - intros k. rewrite !assign_all_get.
    destruct (last_assigned bundles k); reflexivity.
Qed.

(** The part of C8 that holds.  When a call that leaves [report_dict] out
    returns, a second such call on the same inputs (a fresh
    [missing_coc_list] with the same content, a fresh copy of the same
    stack) returns the same missing-CoC list and the same dictionary. *)
Lemma second_call_on_same_inputs
      fuel coc_list coc_tuple missing stack shared missing1 shared1 :
  NoDup (map fst shared) ->
  aggregator_default fuel coc_list coc_tuple missing stack shared
  = Returned missing1 shared1 ->
  aggregator_default fuel coc_list coc_tuple missing stack shared1
  = Returned missing1 shared1.
Proof.
  unfold aggregator_default, aggregator. intros N R.
  set (s := {| missing_coc_list := missing; pdf_stack := stack;
               report_dict := shared |}) in *.
  change {| missing_coc_list := missing; pdf_stack := stack;
            report_dict := shared1 |} with (with_dict s shared1).
  destruct (drain_with_dict coc_list coc_tuple fuel s shared1) as [_ D].
  rewrite D, R. f_equal.
  destruct (drain_returned _ _ _ _ _ _ R) as [s1 [A [_ [_ Er]]]].
  apply after_conserves in A as [_ Ed].
  rewrite <- Er, Ed. now apply assign_all_twice.
Qed.

End Rerun.

(** ** What a returning run reports *)

Section Outcome.

Lemma after_missing coc_list coc_tuple :
  forall n s0 s,
    after n coc_list coc_tuple s0 = Some s ->
    exists new,
      missing_coc_list s = missing_coc_list s0 ++ new /\
      forall p, In p new ->
                In p (pdf_stack s0) /\
                find_coc coc_list coc_tuple p = None.
Proof.
  induction n as [|n IH]; intros s0 s A.
  - injection A as <-. exists []. split; [now rewrite app_nil_r | intros p []].
  - cbn [after] in A. destruct (pdf_stack s0) as [|p rest] eqn:Es.
    + injection A as <-. exists [].
      split; [now rewrite app_nil_r | intros q []].
    + unfold iteration in A. rewrite Es in A.
      destruct (find_coc coc_list coc_tuple p) as [path|] eqn:F.
      * destruct (collect path (p :: rest)) as [[[name b] stack']|] eqn:C;
          [|discriminate A].
        destruct (IH _ _ A) as [new [E H]]. cbn [missing_coc_list pdf_stack] in *.
        exists new. split; [exact E|]. intros q Iq.
        destruct (H q Iq) as [Is Fq]. split; [|exact Fq].
        apply collect_perm in C.
        eapply Permutation_in; [symmetry; exact C|].
        apply in_or_app. now right.
      * destruct (IH _ _ A) as [new [E H]]. cbn [missing_coc_list pdf_stack] in *.
        exists (p :: new). split; [now rewrite E, <- app_assoc|].
        intros q [<-|Iq]; [split; [now left | exact F]|].
        destruct (H q Iq) as [Is Fq]. split; [now right | exact Fq].
Qed.

(** X11.  The list a returning run hands back is the list it was given
    followed by pages of the stack, and for none of the added pages does
    any CoC name start with the page's prefix: a page is reported as
    lacking a CoC only when the list of CoC names holds none for it. *)
Theorem unresolved_pages_have_no_coc
        fuel coc_list coc_tuple missing0 stack report0 missing report :
  aggregator fuel coc_list coc_tuple missing0 stack report0
  = Returned missing report ->
  exists new,
    missing = missing0 ++ new /\
    forall p, In p new ->
              In p stack /\
              forall c, In c coc_list ->
                        Py.startswith c (page_prefix p) = false.
Proof.
  unfold aggregator. intros R.
  apply drain_returned in R as [s [A [_ [Em _]]]].
  apply after_missing in A as [new [E H]]. cbn [missing_coc_list pdf_stack] in *.
  exists new. split; [now rewrite <- Em|].
  intros p Ip. destruct (H p Ip) as [Is F]. split; [exact Is|].
  unfold page_prefix. exact (proj1 (find_coc_none _ _ _) F).
Qed.

(** X12.  [find_coc] answers with the first name of the list that starts
    with the page's prefix, whatever follows it, and puts it under the
    Austin directory when the Austin set holds the name, else under the
    Corpus directory when the Corpus set holds it, else under the PT
    directory. *)
Theorem first_match_wins before i rest A_set C_set P_set pdf_name :
  (forall c, In c before ->
             Py.startswith c (Py.drop_last 7 pdf_name) = false) ->
  Py.startswith i (Py.drop_last 7 pdf_name) = true ->
  find_coc (before ++ i :: rest) (A_set, C_set, P_set) pdf_name
  = Some (if Py.mem i A_set then Py.path_join AUS_COCS i
          else if Py.mem i C_set then Py.path_join CORP_COCS i
               else Py.path_join PT_COCS i).
Proof.
  intros Hb Hi. induction before as [|c before IH]; simpl.
  - rewrite Hi. destruct (Py.mem i A_set); [reflexivity|].
    destruct (Py.mem i C_set); reflexivity.
  - rewrite (Hb c (or_introl eq_refl)). apply IH.
    intros c' Hc'. apply Hb. now right.
Qed.

(** X13.  In a run that returns, no CoC is used for two bundles: the CoC
    paths of the emitted bundles are pairwise different.  Each of them is
    the path of a name of the CoC list, and each bundle is assigned under
    the report name derived from its CoC path. *)
Theorem each_coc_emits_one_bundle
        fuel coc_list coc_tuple missing0 stack report0 missing report :
  aggregator fuel coc_list coc_tuple missing0 stack report0
  = Returned missing report ->
  let bundles :=
    emitted fuel coc_list coc_tuple
            {| missing_coc_list := missing0; pdf_stack := stack;
               report_dict := report0 |} in
  NoDup (map (fun e => coc (snd e)) bundles) /\
  forall e, In e bundles ->
            (exists i, In i coc_list /\ coc (snd e) = coc_path coc_tuple i) /\
            fst e = report_name_of (coc (snd e)).
Proof.
  intros R bundles. unfold aggregator in R. split.
  - exact (proj1 (returned_paths_fresh coc_list coc_tuple missing report
                    fuel _ [] (fun _ F => match F with end) R)).
  - intros e Ie.
    destruct (emitted_from_coc_list _ _ _ _ _ Ie) as [i [Ii [P K]]].
    split; [eauto | exact K].
Qed.

(** X14.  A call that leaves [report_dict] out and returns, followed by a
    second such call on the same inputs, returns the same missing-CoC
    list and the same dictionary: whatever the shared default dictionary
    held before the two calls, the second call changes nothing in it. *)
Theorem repeated_call_changes_nothing
        fuel coc_list coc_tuple missing stack shared missing1 shared1 :
  NoDup (map fst shared) ->
  aggregator_default fuel coc_list coc_tuple missing stack shared
  = Returned missing1 shared1 ->
  aggregator_default fuel coc_list coc_tuple missing stack shared1
  = Returned missing1 shared1.
Proof. apply second_call_on_same_inputs. Qed.

End Outcome.

(** ** Listings, sizes, the merge command and the core of main *)

Section Files.

Lemma remove_absent x l : ~ In x l -> Py.remove x l = None.
Proof.
  induction l as [|y l IH]; simpl; [reflexivity|]. intros N.
  destruct (String.eqb_spec y x) as [->|_]; [exfalso; apply N; now left|].
  rewrite IH; [reflexivity|]. intros I. apply N. now right.
Qed.

Lemma discard_absent x l : ~ In x l -> discard x l = l.
Proof.
  unfold discard. induction l as [|y l IH]; simpl; [reflexivity|]. intros N.
  destruct (String.eqb_spec y x) as [->|_]; [exfalso; apply N; now left|].
  simpl. rewrite IH; [reflexivity|]. intros I. apply N. now right.
Qed.

Lemma discard_not_In x l : ~ In x (discard x l).
Proof.
  unfold discard. intros I. apply filter_In in I as [_ E].
  now rewrite String.eqb_refl in E.
Qed.

Lemma remove_once x l :
  NoDup l -> In x l -> Py.remove x l = Some (discard x l).
Proof.
  unfold discard. induction l as [|y l IH]; simpl; [intros _ []|].
  intros N I. inversion N as [|? ? Ny Nl]; subst.
  destruct (String.eqb_spec y x) as [->|D]; simpl.
  - f_equal. symmetry. now apply discard_absent.
  - destruct I as [E|I]; [congruence|]. now rewrite IH.
Qed.

Lemma remove_app_absent x a b :
  ~ In x a -> Py.remove x (a ++ b) = option_map (app a) (Py.remove x b).
Proof.
  induction a as [|y a IH]; simpl; intros N.
  - now destruct (Py.remove x b).
  - destruct (String.eqb_spec y x) as [->|_]; [exfalso; apply N; now left|].
    rewrite IH by (intros I; apply N; now right).
    now destruct (Py.remove x b).
Qed.

Lemma drop_ds_store_listing l :
  NoDup l -> drop_ds_store l = discard ".DS_Store" l.
Proof.
  intros N. unfold drop_ds_store.
  destruct (in_dec string_dec ".DS_Store" l) as [I|A].
  - now rewrite remove_once.
  - now rewrite remove_absent, discard_absent.
Qed.

Lemma gather_from listings :
  (forall l, In l listings -> NoDup l) ->
  forall acc,
    ~ In ".DS_Store" acc ->
    fold_left
      (fun coc_list listing =>
         let coc_list := coc_list ++ listing in
         match Py.remove ".DS_Store" coc_list with
         | Some l => l
         | None => coc_list
         end)
      listings acc
    = acc ++ List.concat (map (discard ".DS_Store") listings).
Proof.
  induction listings as [|l listings IH]; intros N acc A; simpl.
  - now rewrite app_nil_r.
  - assert (E : match Py.remove ".DS_Store" (acc ++ l) with
                | Some l0 => l0
                | None => acc ++ l
                end = acc ++ discard ".DS_Store" l).
    { rewrite remove_app_absent by exact A.
      pose proof (drop_ds_store_listing l (N l (or_introl eq_refl))) as D.
      unfold drop_ds_store in D.
      destruct (Py.remove ".DS_Store" l); simpl; f_equal; exact D. }
    rewrite E, IH.
    + now rewrite <- app_assoc.
    + intros l' I. apply N. now right.
    + intros I. apply in_app_or in I as [I|I]; [now apply A|].
      now apply discard_not_In in I.
Qed.

(** X15.  When no directory lists a name twice, the list of names that
    [name_check] gathers is the listings one after the other, in their
    order, without any [.DS_Store] entry. *)
Theorem gather_drops_every_ds_store listings :
  (forall l, In l listings -> NoDup l) ->
  gather listings = List.concat (map (discard ".DS_Store") listings) /\
  ~ In ".DS_Store" (gather listings).
Proof.
  intros N.
  assert (E : gather listings = List.concat (map (discard ".DS_Store") listings)).
  { exact (gather_from listings N [] (fun I => I)). }
  split; [exact E|]. rewrite E. intros I.
  apply in_concat in I as [l [Il Ix]].
  apply in_map_iff in Il as [l0 [<- _]]. now apply discard_not_In in Ix.
Qed.

(** X16.  On a listing without repetition, [file_check] answers [True]
    exactly when the directory holds an entry other than [.DS_Store]. *)
Theorem file_check_finds_other_entries listing :
  NoDup listing ->
  (file_check listing = true <->
   exists x, In x listing /\ x <> ".DS_Store").
Proof.
  intros N. unfold file_check.
  destruct listing as [|x [|y rest]]; cbn [List.length Nat.eqb andb].
  - split; [discriminate | intros [x [[] _]]].
  - unfold Py.mem. cbn [existsb]. rewrite orb_false_r.
    destruct (String.eqb_spec ".DS_Store" x) as [<-|D]; split.
    + discriminate.
    + intros [z [[<-|[]] Nz]]. congruence.
    + intros _. exists x. split; [now left | congruence].
    + reflexivity.
  - split; [intros _ | reflexivity].
    inversion N as [|? ? Nx _]; subst.
    destruct (string_dec x ".DS_Store") as [->|D].
    + exists y. split; [right; now left|]. intros ->. apply Nx. now left.
    + exists x. split; [now left | exact D].
Qed.

Lemma add_sizes_shift fs l :
  forall t, add_sizes fs t l = option_map (Z.add t) (add_sizes fs 0 l).
Proof.
  induction l as [|f l IH]; intros t; simpl; [now rewrite Z.add_0_r|].
  destruct (fs f) as [n|]; [|reflexivity].
  rewrite IH, (IH n). destruct (add_sizes fs 0 l); simpl;
    [f_equal; lia | reflexivity].
Qed.

Lemma add_sizes_none fs l :
  forall t, add_sizes fs t l = None <-> exists f, In f l /\ fs f = None.
Proof.
  induction l as [|f l IH]; intros t; simpl.
  - split; [discriminate | intros [f [[] _]]].
  - destruct (fs f) as [n|] eqn:E.
    + rewrite IH. split; intros [g [I G]]; exists g; [auto|].
      destruct I as [<-|I]; [congruence | auto].
    + split; [intros _; exists f; auto | reflexivity].
Qed.

Lemma add_sizes_app fs l1 l2 t :
  add_sizes fs t (l1 ++ l2)
  = match add_sizes fs t l1 with
    | Some n => add_sizes fs n l2
    | None => None
    end.
Proof.
  revert t. induction l1 as [|f l1 IH]; intros t; simpl; [reflexivity|].
  destruct (fs f); [apply IH | reflexivity].
Qed.

Lemma add_sizes_perm fs l l' :
  Permutation l l' -> forall t, add_sizes fs t l = add_sizes fs t l'.
Proof.
  induction 1 as [|f l l' P IH|f g l|l l' l'' P1 IH1 P2 IH2]; intros t; simpl.
  - reflexivity.
  - destruct (fs f); [apply IH | reflexivity].
  - destruct (fs f) as [n|], (fs g) as [m|]; try reflexivity.
    f_equal. lia.
  - now rewrite IH1.
Qed.

(** X17.  [total_file_size] on a list of paths answers [False] exactly
    when one of the paths does not exist; otherwise it answers the sum of
    the sizes: nothing for the empty list, the sum of the two totals for
    a concatenation, the same total for any rearrangement of the list,
    and for a one-element list what it answers for the path alone. *)
Theorem total_file_size_adds_up fs :
  (forall l, total_file_size fs (Files l) = None <->
             exists f, In f l /\ fs f = None) /\
  total_file_size fs (Files []) = Some 0%Z /\
  (forall l1 l2 n1 n2,
      total_file_size fs (Files l1) = Some n1 ->
      total_file_size fs (Files l2) = Some n2 ->
      total_file_size fs (Files (l1 ++ l2)) = Some (n1 + n2)%Z) /\
  (forall l l', Permutation l l' ->
                total_file_size fs (Files l) = total_file_size fs (Files l')) /\
  (forall path, total_file_size fs (Files [path])
                = total_file_size fs (OneFile path)).
Proof.
  cbn [total_file_size]. repeat split.
  - apply add_sizes_none.
  - apply add_sizes_none.
  - intros l1 l2 n1 n2 H1 H2.
    rewrite add_sizes_app, H1, add_sizes_shift, H2. reflexivity.
  - intros l l' P. now apply add_sizes_perm.
  - intros path. simpl. now destruct (fs path).
Qed.

End Files.

(** ** Every page ends in one place *)

Section Conservation.

Lemma NoDup_map_transfer {A B C : Type} (f : A -> B) (g : A -> C) l :
  NoDup (map g l) ->
  (forall x y, In x l -> In y l -> f x = f y -> g x = g y) ->
  NoDup (map f l).
Proof.
  induction l as [|x l IH]; simpl; intros N H; [constructor|].
  inversion N as [|? ? Nx Nl]; subst. constructor.
  - intros I. apply in_map_iff in I as [y [E Iy]].
    apply Nx. apply in_map_iff. exists y. split; [|exact Iy].
    apply H; auto.
  - apply IH; [exact Nl|]. intros a b Ia Ib. apply H; auto.
Qed.

(** With accepted CoC names, a run that returns assigns each report name
    once. *)
Lemma returned_keys_distinct fuel coc_list coc_tuple s0 missing report :
  (forall i, In i coc_list -> check_one i = Pass) ->
  drain fuel coc_list coc_tuple s0 = Returned missing report ->
  NoDup (map fst (emitted fuel coc_list coc_tuple s0)).
Proof.
  intros V R.
  destruct (returned_paths_fresh coc_list coc_tuple missing report
              fuel s0 [] (fun _ F => match F with end) R) as [N _].
  eapply NoDup_map_transfer; [exact N|].
  intros x y Ix Iy E. cbv beta.
  destruct (emitted_from_coc_list _ _ _ _ _ Ix) as [i1 [I1 [P1 K1]]].
  destruct (emitted_from_coc_list _ _ _ _ _ Iy) as [i2 [I2 [P2 K2]]].
  rewrite K1, K2, P1, P2 in E. unfold report_name_of in E.
  destruct (pass_name_facts i1 (V i1 I1)) as [S1 _].
  destruct (pass_name_facts i2 (V i2 I2)) as [S2 _].
  rewrite !coc_path_basename in E by assumption.
  apply pass_report_injective in E; auto.
  rewrite P1, P2. now subst.
Qed.

(** C2.  In every run, after any number of iterations, the pages of the
    bundles emitted so far, the pages moved to the missing-CoC list and
    the pages still on the stack are together a rearrangement of the
    initial stack: each page is in exactly one place as often as it was
    on the initial stack.  When the run returns, the stack is empty: the
    emitted bundles and the returned missing-CoC list partition the
    initial stack, without repetition when the initial stack has none,
    and the returned dictionary is the result of assigning the emitted
    bundles, in order, to their report names.  When the CoC names all
    pass [name_check], no report name is assigned twice, so the returned
    dictionary lists exactly the emitted bundles and its [pdfs] lists
    with the missing-CoC list partition the initial stack. *)
Theorem pages_assigned_exactly_once coc_list coc_tuple stack :
  let s0 := {| missing_coc_list := [];
               pdf_stack := stack;
               report_dict := [] |} in
  (forall n s,
      after n coc_list coc_tuple s0 = Some s ->
      Permutation
        (pages_of (emitted n coc_list coc_tuple s0)
         ++ missing_coc_list s ++ pdf_stack s)
        stack) /\
  (forall fuel missing report,
      aggregator fuel coc_list coc_tuple [] stack [] = Returned missing report ->
      let bundles := emitted fuel coc_list coc_tuple s0 in
      Permutation (pages_of bundles ++ missing) stack /\
      (NoDup stack -> NoDup (pages_of bundles ++ missing)) /\
      report = assign_all [] bundles /\
      ((forall i, In i coc_list -> check_one i = Pass) ->
       report = bundles /\
       NoDup (map fst report) /\
       Permutation (pages_of report ++ missing) stack)).
Proof.
  intros s0. split.
  - intros n s H. now apply after_conserves in H as [P _].
  - intros fuel missing report H bundles.
    pose proof H as R. unfold aggregator in R. fold s0 in R.
    apply drain_returned in H as [s [A [Es [Em Er]]]].
    apply after_conserves in A as [P D].
    rewrite Es, Em, app_nil_r in P. simpl in P.
    assert (Ed : report = assign_all [] bundles) by now rewrite <- Er, D.
    split; [exact P|]. split; [|split; [exact Ed|]].
    + intros N. eapply Permutation_NoDup; [symmetry; exact P | exact N].
    + intros V.
      pose proof (returned_keys_distinct _ _ _ _ _ _ V R) as K.
      fold bundles in K.
      assert (Eb : report = bundles).
      { rewrite Ed. now apply (assign_all_fresh bundles []). }
      rewrite Eb. auto.
Qed.

End Conservation.

(** ** From the directory listings to the merge commands *)

(** The name [strip_chars] leaves in [dirlist] for a listed name. *)
Definition stripped (name : string) : string :=
  match strip_prefix name with
  | Some new => new
  | None => name
  end.

Section Pipeline.

Lemma prefix_empty s : prefix EmptyString s = true.
Proof. now destruct s. Qed.

Ltac prefix_decide :=
  unfold Py.startswith; cbn [append prefix];
  repeat match goal with
         | |- context [ascii_dec ?x ?y] =>
             destruct (ascii_dec x y); try congruence
         end;
  try apply prefix_empty; try reflexivity.

Lemma space_not_digit a : is_space a = true -> Py.is_digit a = false.
Proof.
  unfold is_space, Py.is_digit. intros H.
  apply andb_false_iff. left. apply Nat.leb_gt.
  apply orb_true_iff in H as [H|H]; apply andb_true_iff in H as [_ H];
    apply Nat.leb_le in H; lia.
Qed.

Lemma skip_digits_split s :
  exists ds, Py.all_digits ds = true /\ s = (ds ++ skip_digits s)%string.
Proof.
  induction s as [|a s [ds [D E]]]; [now exists EmptyString|].
  simpl. destruct (Py.is_digit a) eqn:Da.
  - exists (String a ds). simpl. rewrite Da, D. split; [reflexivity|].
    now rewrite <- E.
  - now exists EmptyString.
Qed.

Lemma skip_digits_app ds a rest :
  Py.all_digits ds = true -> Py.is_digit a = false ->
  skip_digits (ds ++ String a rest) = String a rest.
Proof.
  intros D Da. induction ds as [|d ds IH]; simpl.
  - now rewrite Da.
  - simpl in D. apply andb_true_iff in D as [Dd D]. rewrite Dd. now apply IH.
Qed.

Lemma substring_0_all s : forall m, String.length s <= m -> substring 0 m s = s.
Proof.
  induction s as [|a s IH]; intros [|m] L; simpl in *; try reflexivity;
    try lia. rewrite IH by lia. reflexivity.
Qed.

Lemma startswith_job_ name :
  Py.startswith name "job_" = true ->
  exists rest, name = ("job_" ++ rest)%string /\
               substring 4 (String.length name) name = rest.
Proof.
  unfold Py.startswith. intros H.
  destruct name as [|a [|b [|c [|d rest]]]]; try discriminate H;
    cbn [prefix] in H;
    repeat match type of H with
           | (if ascii_dec ?x ?y then _ else _) = true =>
               destruct (ascii_dec x y) as [<-|]; [|discriminate H]
           end; try discriminate H.
  exists rest. split; [reflexivity|].
  cbn [substring String.length]. apply substring_0_all. lia.
Qed.

(** X18.  The prefix that [strip_chars] removes.  Splitting a name on
    [prefix_RE] and taking part [1] gives a new name exactly when the
    name is [job_], any number of digits, one whitespace character and
    that new name; for every other name the index is out of range. *)
Theorem strip_prefix_cuts_job_number name new :
  strip_prefix name = Some new <->
  exists ds sp,
    Py.all_digits ds = true /\ is_space sp = true /\
    name = ("job_" ++ ds ++ String sp new)%string.
Proof.
  unfold strip_prefix. split.
  - destruct (Py.startswith name "job_") eqn:J; [|discriminate].
    apply startswith_job_ in J as [rest [E ->]].
    destruct (skip_digits_split rest) as [ds [D R]].
    destruct (skip_digits rest) as [|a tl]; [discriminate|].
    destruct (is_space a) eqn:Sa; [|discriminate].
    intros H. injection H as <-. exists ds, a. rewrite E, R. auto.
  - intros [ds [sp [D [Sp ->]]]].
    assert (J : Py.startswith ("job_" ++ ds ++ String sp new) "job_" = true)
      by prefix_decide.
    rewrite J. apply startswith_job_ in J as [rest [E ->]].
    injection E as <-.
    rewrite skip_digits_app by (auto using space_not_digit).
    now rewrite Sp.
Qed.

Lemma strip_prefix_job name new :
  strip_prefix name = Some new -> Py.startswith name "job" = true.
Proof.
  unfold strip_prefix. destruct (Py.startswith name "job_") eqn:J;
    [intros _ | discriminate].
  apply startswith_job_ in J as [rest [-> _]]. prefix_decide.
Qed.

Lemma page_name_not_job p :
  page_name_ok p = true -> Py.startswith p "job" = false.
Proof.
  intros H. apply name_RE_forms in H.
  destruct H as [[hi [lo [n [Dh [_ [_ ->]]]]]]
                |[tag [d [e [n [Ht [_ [_ [_ ->]]]]]]]]].
  - destruct Dh as [a [b [c [-> [Ha _]]]]].
    unfold Py.startswith, numbered_page, str3. cbn [append].
    apply prefix_head_neq. now apply (class_neq Py.is_digit).
  - unfold control_page. destruct Ht as [<-|[<-|[<-|[]]]]; prefix_decide.
Qed.

Lemma strip_loop_some rename_ok l dirlist bad :
  strip_loop rename_ok l = Some (dirlist, bad) ->
  dirlist = map stripped l /\
  bad = filter (fun n => negb (page_name_ok n)) dirlist.
Proof.
  revert dirlist bad. induction l as [|name rest IH]; intros dirlist bad.
  - simpl. intros H. injection H as <- <-. now split.
  - cbn [strip_loop map]. unfold stripped at 1.
    destruct (Py.startswith name "job") eqn:J.
    + destruct (strip_prefix name) as [new|].
      * destruct (rename_ok name new); [|discriminate].
        destruct (strip_loop rename_ok rest) as [[dl bd]|]; [|discriminate].
        destruct (IH dl bd eq_refl) as [Ed Eb].
        intros H. injection H as <- <-. split; [now rewrite Ed|].
        cbn [filter]. rewrite <- Eb. now destruct (page_name_ok new).
      * destruct (strip_loop rename_ok rest) as [[dl bd]|]; [|discriminate].
        destruct (IH dl bd eq_refl) as [Ed Eb].
        intros H. injection H as <- <-. split; [now rewrite Ed|].
        cbn [filter]. rewrite <- Eb.
        destruct (page_name_ok name) eqn:K; [|reflexivity].
        apply page_name_not_job in K. congruence.
    + destruct (strip_prefix name) as [new|] eqn:P.
      * apply strip_prefix_job in P. congruence.
      * destruct (strip_loop rename_ok rest) as [[dl bd]|]; [|discriminate].
        destruct (IH dl bd eq_refl) as [Ed Eb].
        intros H. injection H as <- <-. split; [now rewrite Ed|].
        cbn [filter]. rewrite <- Eb. now destruct (page_name_ok name).
Qed.

Lemma strip_loop_none rename_ok l :
  strip_loop rename_ok l = None <->
  exists name new,
    In name l /\ strip_prefix name = Some new /\ rename_ok name new = false.
Proof.
  induction l as [|name rest IH].
  - simpl. split; [discriminate | intros [? [? [[] _]]]].
  - cbn [strip_loop].
    assert (T : strip_loop rename_ok rest = None ->
                exists n new, In n (name :: rest) /\
                              strip_prefix n = Some new /\
                              rename_ok n new = false).
    { intros H. apply IH in H as [n [new [I H]]].
      exists n, new. split; [now right | exact H]. }
    destruct (strip_prefix name) as [new|] eqn:P.
    + rewrite (strip_prefix_job _ _ P).
      destruct (rename_ok name new) eqn:R.
      * destruct (strip_loop rename_ok rest) as [[dl bd]|] eqn:L.
        -- split; [discriminate|].
           intros [n [new' [[<-|I] [Pn Rn]]]].
           ++ congruence.
           ++ assert (X : Some (dl, bd) = None) by (apply IH; eauto).
              discriminate X.
        -- split; [intros _; now apply T | reflexivity].
      * split; [intros _ | reflexivity]. exists name, new.
        split; [now left | auto].
    + assert (E : (if Py.startswith name "job"
                   then match strip_loop rename_ok rest with
                        | Some (dl, bd) => Some (name :: dl, name :: bd)
                        | None => None
                        end
                   else match strip_loop rename_ok rest with
                        | Some (dl, bd) =>
                            Some (name :: dl,
                                  if page_name_ok name then bd else name :: bd)
                        | None => None
                        end) = None <-> strip_loop rename_ok rest = None).
      { destruct (Py.startswith name "job");
          destruct (strip_loop rename_ok rest) as [[dl bd]|];
          split; congruence. }
      rewrite E. split; [exact T|].
      intros [n [new [[<-|I] [Pn Rn]]]]; [congruence|].
      apply IH. eauto.
Qed.

Lemma strip_chars_some rename_ok listing valid bad :
  strip_chars rename_ok listing = Some (valid, bad) ->
  let dirlist := map stripped (drop_ds_store listing) in
  NoDup valid /\
  (forall n, In n valid <-> In n dirlist /\ page_name_ok n = true) /\
  (bad = None <-> forall n, In n dirlist -> page_name_ok n = true) /\
  (forall l, bad = Some l ->
             l = filter (fun n => negb (page_name_ok n)) dirlist).
Proof.
  intros H dirlist. unfold strip_chars in H.
  destruct (strip_loop rename_ok (drop_ds_store listing)) as [[dl bd]|] eqn:L;
    [|discriminate].
  apply strip_loop_some in L as [Ed Eb]. fold dirlist in Ed. subst dl.
  assert (V : valid
              = set_order (Py.difference (Py.set dirlist) (Py.set bd))
              /\ bad = match bd with [] => None | _ => Some bd end).
  { destruct bd; injection H as <- <-; auto. }
  clear H. destruct V as [-> Hb].
  assert (Hin : forall n, In n bd <-> In n dirlist /\ page_name_ok n = false).
  { intros n. rewrite Eb, filter_In, negb_true_iff. reflexivity. }
  split; [|split; [|split]].
  - eapply Permutation_NoDup; [symmetry; apply set_order_perm|].
    apply NoDup_filter, set_NoDup.
  - intros n.
    assert (S : In n (set_order (Py.difference (Py.set dirlist) (Py.set bd)))
                <-> In n (Py.difference (Py.set dirlist) (Py.set bd))).
    { split; apply Permutation_in;
        [apply set_order_perm | symmetry; apply set_order_perm]. }
    rewrite S. unfold Py.difference.
    rewrite filter_In, set_In, negb_true_iff, mem_false, set_In, Hin.
    split; intros [I K]; (split; [exact I|]).
    + destruct (page_name_ok n); [reflexivity|]. exfalso. now apply K.
    + intros [_ F]. congruence.
  - split.
    + intros E n I. destruct bd as [|x bd]; [|rewrite Hb in E; discriminate].
      destruct (page_name_ok n) eqn:K; [reflexivity|].
      destruct (proj2 (Hin n) (conj I K)).
    + intros A. destruct bd as [|x bd]; [exact Hb|]. exfalso.
      destruct (proj1 (Hin x) (or_introl eq_refl)) as [I K].
      rewrite (A x I) in K. discriminate.
  - intros l E. destruct bd as [|x bd]; rewrite Hb in E; [discriminate|].
    injection E as <-. exact Eb.
Qed.

(** X19.  What [strip_chars] returns.  Its working list is the listing
    without one [.DS_Store] entry, each name replaced by its stripped
    form.  The valid names are, without repetition, the names of the
    working list that [name_RE] matches in full; the bad names are the
    others, in their order and as often as they occur, or [None] when
    there are none. *)
Theorem strip_chars_splits_by_grammar rename_ok listing valid bad :
  strip_chars rename_ok listing = Some (valid, bad) ->
  let dirlist := map stripped (drop_ds_store listing) in
  NoDup valid /\
  (forall n, In n valid <-> In n dirlist /\ page_name_ok n = true) /\
  (bad = None <-> forall n, In n dirlist -> page_name_ok n = true) /\
  (forall l, bad = Some l ->
             l = filter (fun n => negb (page_name_ok n)) dirlist).
Proof. apply strip_chars_some. Qed.

(** X20.  [strip_chars] raises exactly when [os.rename] fails for a name
    of the listing that carries the job prefix; names without the prefix
    are never renamed. *)
Theorem strip_chars_raises_on_failed_rename rename_ok listing :
  strip_chars rename_ok listing = None <->
  exists name new,
    In name (drop_ds_store listing) /\
    strip_prefix name = Some new /\ rename_ok name new = false.
Proof.
  rewrite <- strip_loop_none. unfold strip_chars.
  destruct (strip_loop rename_ok (drop_ds_store listing)) as [[dl [|x bd]]|];
    split; congruence.
Qed.

Lemma name_check_all_pass listings coc_list :
  name_check listings = Some (None, coc_list) ->
  coc_list = gather listings /\
  forall i, In i coc_list -> check_one i = Pass.
Proof.
  unfold name_check. rewrite bad_names_of_total.
  set (f := fun i => match check_one i with Pass => false | _ => true end).
  destruct (filter f (gather listings)) as [|b bad] eqn:F; [|discriminate].
  intros H. injection H as <-. split; [reflexivity|].
  intros i I. destruct (check_one i) eqn:C; [reflexivity| |];
    (assert (X : In i (filter f (gather listings)))
      by (apply filter_In; split; [exact I | unfold f; now rewrite C]);
     rewrite F in X; destruct X).
Qed.

Lemma returned_report_partitions fuel coc_list coc_tuple stack missing report :
  (forall i, In i coc_list -> check_one i = Pass) ->
  aggregator fuel coc_list coc_tuple [] stack [] = Returned missing report ->
  NoDup (map fst report) /\
  Permutation (pages_of report ++ missing) stack.
Proof.
  intros V H. pose proof H as R. unfold aggregator in R.
  apply drain_returned in H as [s [A [Es [Em Er]]]].
  apply after_conserves in A as [P D].
  rewrite Es, Em, app_nil_r in P. simpl in P.
  pose proof (returned_keys_distinct _ _ _ _ _ _ V R) as K.
  assert (Eb : report = emitted fuel coc_list coc_tuple
                          {| missing_coc_list := [];
                             pdf_stack := stack;
                             report_dict := [] |}).
  { rewrite <- Er, D. now apply assign_all_fresh. }
  rewrite Eb. auto.
Qed.

(** X21.  The command of a collected bundle.  For a bundle that the loop
    collected for a CoC path, [collate] hands ghostscript the seven fixed
    arguments, the output file under [FIN_REPORTS], the bundle's pages
    under [REVD_REPORTS] in sorted order and the CoC path last; the pages
    were taken from the stack; and the returned [start_size] is [False]
    exactly when the CoC or one of the pages does not exist. *)
Theorem collate_merges_pages_then_coc fs path stack name b stack' :
  collect path stack = Some (name, b, stack') ->
  exists pages,
    StronglySorted str_le pages /\
    Permutation stack (pages ++ stack') /\
    fst (collate fs name b)
    = ["gs"; "-q"; "-dBATCH"; "-dNOPAUSE"; "-sDEVICE=pdfwrite";
       "-dAutoRotatePages=/PageByPage";
       ("-sOutputFile=" ++ Py.path_join FIN_REPORTS name)%string]
      ++ map (Py.path_join REVD_REPORTS) pages ++ [path] /\
    (snd (collate fs name b) = None <->
     fs path = None \/
     exists k, In k pages /\ fs (Py.path_join REVD_REPORTS k) = None).
Proof.
  intros H. pose proof (collect_perm _ _ _ _ _ H) as P.
  destruct (collect_inv _ _ _ _ _ H)
    as [required [missing [_ [_ [_ [Eb _]]]]]].
  exists (pdfs b). split; [rewrite Eb; apply sort_sorted|].
  split; [exact P|].
  assert (Ec : coc b = path) by (rewrite Eb; reflexivity).
  split.
  - unfold collate, gs_command, gs_list. cbn [fst]. now rewrite Ec.
  - unfold collate, gs_list. cbn [snd total_file_size].
    rewrite add_sizes_none, Ec. split.
    + intros [f [I F]]. apply in_app_or in I as [I|[<-|[]]].
      * apply in_map_iff in I as [k [<- I]]. right. eauto.
      * now left.
    + intros [F|[k [I F]]].
      * exists path. split; [|exact F]. apply in_or_app. right. now left.
      * exists (Py.path_join REVD_REPORTS k). split; [|exact F].
        apply in_or_app. left. now apply in_map.
Qed.

(** X22.  What [main] reconciles.  When [main] reaches the report loop,
    the reviewed folder held an entry, every gathered CoC name passed
    [name_check], and [strip_chars] returned; no report name was assigned
    twice, and the pages of the reports together with the missing-CoC
    list are the valid names that [strip_chars] returned, each once and
    each of a form [name_RE] accepts. *)
Theorem main_reconciles_accepted_pages rename_ok fuel aus corp pt revd
        bad missing report :
  main_core rename_ok fuel aus corp pt revd = Reconciled bad missing report ->
  file_check revd = true /\
  (forall i, In i (gather [aus; corp; pt]) -> check_one i = Pass) /\
  exists valid,
    strip_chars rename_ok revd = Some (valid, bad) /\
    NoDup (map fst report) /\
    Permutation (pages_of report ++ missing) valid /\
    NoDup (pages_of report ++ missing) /\
    (forall k, In k (pages_of report ++ missing) -> page_name_ok k = true).
Proof.
  unfold main_core. destruct (file_check revd); [|discriminate].
  cbn [negb].
  destruct (name_check [aus; corp; pt]) as [[[bad_names|] coc_list]|] eqn:N;
    try discriminate.
  apply name_check_all_pass in N as [-> V].
  destruct (strip_chars rename_ok revd) as [[valid bad']|] eqn:S;
    [|discriminate].
  unfold aggregator_default.
  match goal with
  | |- match ?a with _ => _ end = _ -> _ => destruct a as [m r| |] eqn:A
  end; try discriminate.
  intros H. injection H as -> -> ->.
  split; [reflexivity|]. split; [exact V|].
  exists valid. split; [reflexivity|].
  destruct (returned_report_partitions _ _ _ _ _ _ V A) as [K P].
  destruct (strip_chars_some _ _ _ _ S) as [Nv [Iv _]].
  assert (P' : Permutation (pages_of report ++ missing) valid).
  { rewrite P. apply sort_perm. }
  split; [exact K|]. split; [exact P'|]. split.
  - eapply Permutation_NoDup; [symmetry; exact P' | exact Nv].
  - intros k I. apply (Permutation_in _ P') in I. now apply Iv in I.
Qed.

End Pipeline.

End Collator.

(** ** Concrete runs *)

(** C3, at inputs where it fails.  [000123-125coc.pdf] passes
    [name_check]; its expansion is [{'123', '124', '125'}]: the integers
    are rendered by [str], which drops the leading zeros, so no member is
    a six-digit string.  [123456a-460coc.pdf] passes [name_check] too (see
    C6) and expands to the empty set. *)
Theorem get_ranges_drops_leading_zeros :
  check_one "000123-125coc.pdf" = Pass /\
  get_ranges "000123-125coc.pdf" = Some ["123"; "124"; "125"] /\
  (forall x, In x ["123"; "124"; "125"] -> String.length x <> 6) /\
  check_one "123456a-460coc.pdf" = Pass /\
  get_ranges "123456a-460coc.pdf" = Some [].
Proof.
  repeat split; try reflexivity.
  intros x [<-|[<-|[<-|[]]]]; discriminate.
Qed.

(** C6, at an input where it fails.  A range name whose start carries a
    rerun letter and whose end carries none is matched by [coc_RE] (the
    back-reference to the letter is optional) and passes [name_check];
    the other two mismatches are rejected. *)
Theorem letter_on_start_only_is_accepted :
  check_one "123456a-460coc.pdf" = Pass /\
  name_check [["123456a-460coc.pdf"]] = Some (None, ["123456a-460coc.pdf"]) /\
  check_one "123456-460acoc.pdf" = Bad /\
  check_one "123456a-460bcoc.pdf" = Bad.
Proof. repeat split; reflexivity. Qed.

(** C8, at an input where it fails.  Two calls that leave [report_dict]
    out, on unrelated inputs: the dictionary returned by the second call
    still holds the bundle of the first, which a call on the second
    inputs alone does not produce. *)
Theorem default_report_dict_leaks :
  let b1 := {| coc := "111111coc.pdf"; pdfs := ["111111pg1.pdf"];
               missing_pdfs := None |} in
  let b2 := {| coc := "222222coc.pdf"; pdfs := ["222222pg1.pdf"];
               missing_pdfs := None |} in
  two_default_calls "" "" "" id_order 5
    ["111111coc.pdf"] (["111111coc.pdf"], [], []) ["111111pg1.pdf"]
    ["222222coc.pdf"] (["222222coc.pdf"], [], []) ["222222pg1.pdf"]
  = Some (Returned [] [("111111.pdf", b1)],
          Returned [] [("111111.pdf", b1); ("222222.pdf", b2)]) /\
  aggregator "" "" "" id_order 5
    ["222222coc.pdf"] (["222222coc.pdf"], [], []) [] ["222222pg1.pdf"] []
  = Returned [] [("222222.pdf", b2)].
Proof. split; reflexivity. Qed.

(** C4 as stated fails at [123456-456coc.pdf]: the first three digits of
    the start are 123 and the end is 456, for which the rule does not
    reject, yet the name is rejected (its last three digits equal the
    end). *)
Lemma first_three_digits_do_not_decide :
  fullmatch coc_RE "123456-456coc.pdf" <> None /\
  ~ (forall first last,
        Py.int (start_high_digits "123456-456coc.pdf") = Some first ->
        Py.int (end_digits "123456-456coc.pdf") = Some last ->
        (check_one "123456-456coc.pdf" = Bad
         <-> range_rule first last = true)).
Proof.
  split; [discriminate|].
  intros H. specialize (H 123%Z 456%Z eq_refl eq_refl).
  destruct H as [H _]. specialize (H eq_refl). discriminate H.
Qed.

(** C5, at an input where it fails.  [000001-002coc.pdf] passes
    [name_check] and the two page names are accepted by [strip_chars].
    [get_ranges] gives the ids ['1'] and ['2'] (the leading zeros are
    lost), so the first iteration of the loop, which builds the bundle of
    that CoC, collects [100000pg1.pdf], whose prefix [100000] is none of
    the ids, and leaves the CoC's own page [000001pg1.pdf] on the stack;
    [backcheck], which compares the prefixes by equality, reports both
    ids as missing in the same bundle.  So the pages collected are not
    the stack entries whose prefix equals a required id. *)
Theorem collected_page_has_other_prefix :
  check_one "000001-002coc.pdf" = Pass /\
  page_name_ok "000001pg1.pdf" = true /\
  page_name_ok "100000pg1.pdf" = true /\
  get_ranges "000001-002coc.pdf" = Some ["1"; "2"] /\
  iteration "" "" "" id_order ["000001-002coc.pdf"]
            (["000001-002coc.pdf"], [], [])
            {| missing_coc_list := [];
               pdf_stack := ["000001pg1.pdf"; "100000pg1.pdf"];
               report_dict := [] |}
  = Some {| missing_coc_list := [];
            pdf_stack := ["000001pg1.pdf"];
            report_dict :=
              [("000001-002.pdf",
                {| coc := "000001-002coc.pdf";
                   pdfs := ["100000pg1.pdf"];
                   missing_pdfs := Some ["1"; "2"] |})] |} /\
  page_prefix "100000pg1.pdf" = "100000" /\
  page_prefix "000001pg1.pdf" = "000001" /\
  ~ (forall name b stack' required,
        collect id_order "000001-002coc.pdf"
                ["000001pg1.pdf"; "100000pg1.pdf"]
        = Some (name, b, stack') ->
        get_ranges "000001-002coc.pdf" = Some required ->
        forall k, In k (pdfs b) <->
                  In k ["000001pg1.pdf"; "100000pg1.pdf"] /\
                  exists j, In j required /\ page_prefix k = j).
Proof.
  repeat split; try reflexivity.
  intros H.
  specialize (H _ _ _ _ eq_refl eq_refl "100000pg1.pdf").
  destruct H as [H _].
  destruct H as [_ [j [Hj Hp]]]; [now left|].
  subst j. destruct Hj as [E|[E|[]]]; discriminate E.
Qed.

(** ** Instances of the general statements *)

Lemma id_order_perm : forall l, Permutation (id_order l) l.
Proof. intros l. apply Permutation_refl. Defined.


(** A CoC that is in none of the three sets is placed under the PT
    directory. *)
Lemma find_coc_falls_back_to_PT_witness :
  find_coc "/aus" "/corp" "/pt" ["999999coc.pdf"; "123456coc.pdf"]
           ([], [], []) "123456pg1.pdf"
  = Some "/pt/123456coc.pdf".
Proof.
  apply (find_coc_falls_back_to_PT
           "/aus" "/corp" "/pt" ["999999coc.pdf"] "123456coc.pdf" []
           [] [] "123456pg1.pdf").
  - intros c [<-|[]]. reflexivity.
  - reflexivity.
  - reflexivity.
  - reflexivity.
Defined.

(** The example of the specification under the construction order. *)
Lemma backcheck_reports_difference_witness :
  exists required_pdfs,
    backcheck id_order "123450-452coc.pdf" ["123450pg1.pdf"; "123452pg1.pdf"]
    = Some (required_pdfs, Some ["123451"]).
Proof.
  exact (proj2 (backcheck_reports_difference id_order id_order_perm)).
Defined.

(** A run with a range that lacks a page, a page without CoC and a QC
    report. *)
Lemma pages_assigned_exactly_once_witness :
  let coc_list := ["123450-452coc.pdf"; "QC123-456coc.pdf"] in
  let coc_tuple := ([], ["QC123-456coc.pdf"], []) in
  let stack := ["123450pg1.pdf"; "123452pg1.pdf"; "123460pg1.pdf";
                "QC123-456pg1.pdf"] in
  let report :=
    [("123450-452.pdf",
      {| coc := "/p/123450-452coc.pdf";
         pdfs := ["123450pg1.pdf"; "123452pg1.pdf"];
         missing_pdfs := Some ["123451"] |});
     ("QC123-456.pdf",
      {| coc := "/c/QC123-456coc.pdf";
         pdfs := ["QC123-456pg1.pdf"];
         missing_pdfs := None |})] in
  aggregator "/a" "/c" "/p" id_order 10 coc_list coc_tuple [] stack []
  = Returned ["123460pg1.pdf"] report /\
  NoDup (map fst report) /\
  Permutation (pages_of report ++ ["123460pg1.pdf"]) stack.
Proof.
  intros coc_list coc_tuple stack report.
  assert (R : aggregator "/a" "/c" "/p" id_order 10 coc_list coc_tuple
                         [] stack []
              = Returned ["123460pg1.pdf"] report) by reflexivity.
  assert (V : forall i, In i coc_list -> check_one i = Pass).
  { intros i [<-|[<-|[]]]; reflexivity. }
  split; [exact R|].
  exact (proj2 (proj2 (proj2 (proj2
                 (proj2 (pages_assigned_exactly_once
                           "/a" "/c" "/p" id_order id_order_perm
                           coc_list coc_tuple stack)
                        10 _ _ R))) V)).
Defined.

(** A two-page report. *)
Lemma bundle_takes_pages_starting_with_ids_witness :
  exists required,
    get_ranges (Py.basename "/a/123456coc.pdf") = Some required /\
    (forall k, In k ["123456pg1.pdf"; "123456pg2.pdf"] <->
               In k ["123456pg2.pdf"; "123456pg1.pdf"; "123457pg1.pdf"] /\
               exists j, In j required /\ Py.startswith k j = true) /\
    Permutation ["123456pg2.pdf"; "123456pg1.pdf"; "123457pg1.pdf"]
                (["123456pg1.pdf"; "123456pg2.pdf"] ++ ["123457pg1.pdf"]) /\
    (forall k j, In k ["123457pg1.pdf"] -> In j required ->
                 Py.startswith k j = false) /\
    StronglySorted str_le ["123456pg1.pdf"; "123456pg2.pdf"] /\
    ["123456pg1.pdf"; "123456pg2.pdf"]
    = Py.sort (match_pages required
                 ["123456pg2.pdf"; "123456pg1.pdf"; "123457pg1.pdf"]).
Proof.
  exact (bundle_takes_pages_starting_with_ids
           id_order id_order_perm "/a/123456coc.pdf"
           ["123456pg2.pdf"; "123456pg1.pdf"; "123457pg1.pdf"]
           "123456.pdf"
           {| coc := "/a/123456coc.pdf";
              pdfs := ["123456pg1.pdf"; "123456pg2.pdf"];
              missing_pdfs := None |}
           ["123457pg1.pdf"] eq_refl).
Defined.

(** The stalled run under the construction order and the directories of
    the source, with a bound of a thousand iterations. *)
Lemma rerun_coc_stalls_the_loop_witness :
  aggregator "" "" "" id_order 1000 ["123456acoc.pdf"]
             (["123456acoc.pdf"], [], []) [] ["123456pg1.pdf"] []
  = Exhausted.
Proof.
  exact (proj2 (proj2 (rerun_coc_stalls_the_loop
                         "" "" "" id_order id_order_perm))
               (["123456acoc.pdf"], [], []) [] [] 1000).
Defined.

(** The two ranges of the source's comment: 990 to 010 is a rollover, 990
    to 960 is a mistake. *)
Lemma range_check_compares_low_digits_witness :
  (exists first last,
      Py.int (start_low_digits "400990-010coc.pdf") = Some first /\
      Py.int (end_digits "400990-010coc.pdf") = Some last /\
      check_one "400990-010coc.pdf"
      = (if range_rule first last then Bad else Pass) /\
      (check_one "400990-010coc.pdf" = Bad <->
       (Z.abs (last - first) = 0
        \/ (last < first /\ Z.abs (last - first) < 100))%Z)) /\
  check_one "400990-010coc.pdf" = Pass /\
  check_one "400990-960coc.pdf" = Bad.
Proof.
  split; [|split; reflexivity].
  destruct (fullmatch coc_RE "400990-010coc.pdf") as [m|] eqn:E;
    [|discriminate E].
  exact (range_check_compares_low_digits
           "400990-010coc.pdf" m E eq_refl eq_refl).
Defined.

(** ** Instances of the further statements *)

Ltac nodup_strings :=
  repeat (constructor; [simpl; intuition discriminate|]); constructor.

(** A name and its rerun have different report names. *)
Lemma report_name_identifies_coc_name_witness :
  report_name_of
    (coc_path "/a" "/c" "/p" (["123456coc.pdf"], [], []) "123456coc.pdf")
  = Py.remove_substring "coc" "123456coc.pdf" /\
  (report_name_of
     (coc_path "/a" "/c" "/p" (["123456coc.pdf"], [], []) "123456coc.pdf")
   = report_name_of
       (coc_path "/a" "/c" "/p" (["123456coc.pdf"], [], []) "123456acoc.pdf")
   -> "123456coc.pdf" = "123456acoc.pdf").
Proof.
  apply (report_name_identifies_coc_name
           "/a" "/c" "/p" (["123456coc.pdf"], [], [])
           "123456coc.pdf" "123456acoc.pdf"); reflexivity.
Defined.

(** A single name expands to its stem. *)
Lemma get_ranges_returns_on_passing_names_witness :
  exists required,
    get_ranges "123456coc.pdf" = Some required /\
    NoDup required /\
    (Py.contains "-" "123456coc.pdf" = false
     \/ Py.startswith_any "123456coc.pdf" ["QC"; "SP"; "WP"] = true ->
     required = [Py.drop_last 7 "123456coc.pdf"]).
Proof.
  apply (get_ranges_returns_on_passing_names "123456coc.pdf"). reflexivity.
Defined.

(** The rollover range of the source's comment has 21 members. *)
Lemma range_expansion_size_and_members_witness :
  exists required,
    get_ranges "400990-010coc.pdf" = Some required /\
    Z.of_nat (List.length required) = 21%Z /\
    2 <= List.length required /\
    NoDup required /\
    forall s, In s required <->
              exists x, (400990 <= x <= 401010)%Z /\
                        s = (Py.str x ++ "")%string.
Proof.
  apply (range_expansion_size_and_members "400" "990" "" "010").
  - do 3 eexists. split; [reflexivity|]. repeat split.
  - do 3 eexists. split; [reflexivity|]. repeat split.
  - do 3 eexists. split; [reflexivity|]. repeat split.
  - left. reflexivity.
  - reflexivity.
Defined.

(** Two pages of one report: the stack is drained within two iterations. *)
Lemma covered_stack_is_drained_witness :
  covered "/a" "/c" "/p" ["123456coc.pdf"] (["123456coc.pdf"], [], [])
          ["123456pg1.pdf"; "123456pg2.pdf"] /\
  aggregator "/a" "/c" "/p" id_order 2 ["123456coc.pdf"]
             (["123456coc.pdf"], [], []) []
             ["123456pg1.pdf"; "123456pg2.pdf"] []
  <> Exhausted.
Proof.
  assert (C : covered "/a" "/c" "/p" ["123456coc.pdf"]
                      (["123456coc.pdf"], [], [])
                      ["123456pg1.pdf"; "123456pg2.pdf"]).
  { intros p path required [<-|[<-|[]]] F G;
      vm_compute in F; injection F as <-;
      vm_compute in G; injection G as <-;
      (exists "123456"; split; [now left | reflexivity]). }
  split; [exact C|].
  exact (covered_stack_is_drained
           "/a" "/c" "/p" id_order id_order_perm ["123456coc.pdf"]
           (["123456coc.pdf"], [], []) []
           ["123456pg1.pdf"; "123456pg2.pdf"] [] C).
Defined.

(** A range of three ids against three pages. *)
Lemma step_with_ids_of_one_length_witness :
  exists name b,
    collect id_order "/a/123450-452coc.pdf"
            ["123450pg1.pdf"; "123452pg1.pdf"; "123460pg1.pdf"]
    = Some (name, b,
            unmatched ["123450"; "123451"; "123452"]
                      ["123450pg1.pdf"; "123452pg1.pdf"; "123460pg1.pdf"]) /\
    name = report_name_of "/a/123450-452coc.pdf" /\
    Permutation
      (pdfs b)
      (filter (fun k => existsb (Py.startswith k)
                                ["123450"; "123451"; "123452"])
              ["123450pg1.pdf"; "123452pg1.pdf"; "123460pg1.pdf"]) /\
    StronglySorted str_le (pdfs b).
Proof.
  apply (step_with_ids_of_one_length
           id_order id_order_perm "/a/123450-452coc.pdf"
           ["123450pg1.pdf"; "123452pg1.pdf"; "123460pg1.pdf"]
           ["123450"; "123451"; "123452"]).
  - reflexivity.
  - intros j j' [<-|[<-|[<-|[]]]] [<-|[<-|[<-|[]]]]; reflexivity.
Defined.

(** The page left without a CoC in a run of four pages. *)
Lemma unresolved_pages_have_no_coc_witness :
  let coc_list := ["123450-452coc.pdf"; "QC123-456coc.pdf"] in
  let stack := ["123450pg1.pdf"; "123452pg1.pdf"; "123460pg1.pdf";
                "QC123-456pg1.pdf"] in
  exists new,
    ["123460pg1.pdf"] = [] ++ new /\
    forall p, In p new ->
              In p stack /\
              forall c, In c coc_list ->
                        Py.startswith c (page_prefix p) = false.
Proof.
  intros coc_list stack.
  apply (unresolved_pages_have_no_coc
           "/a" "/c" "/p" id_order 10 coc_list
           ([], ["QC123-456coc.pdf"], []) [] stack []
           ["123460pg1.pdf"]
           [("123450-452.pdf",
             {| coc := "/p/123450-452coc.pdf";
                pdfs := ["123450pg1.pdf"; "123452pg1.pdf"];
                missing_pdfs := Some ["123451"] |});
            ("QC123-456.pdf",
             {| coc := "/c/QC123-456coc.pdf";
                pdfs := ["QC123-456pg1.pdf"];
                missing_pdfs := None |})]).
  reflexivity.
Defined.

(** The second name of the list is the first that matches; the Corpus
    set holds it. *)
Lemma first_match_wins_witness :
  find_coc "/aus" "/corp" "/pt" ["999999coc.pdf"; "123456coc.pdf"]
           ([], ["123456coc.pdf"], ["123456coc.pdf"]) "123456pg1.pdf"
  = Some "/corp/123456coc.pdf".
Proof.
  apply (first_match_wins
           "/aus" "/corp" "/pt" ["999999coc.pdf"] "123456coc.pdf" []
           [] ["123456coc.pdf"] ["123456coc.pdf"] "123456pg1.pdf").
  - intros c [<-|[]]. reflexivity.
  - reflexivity.
Defined.

(** The two bundles of a run of four pages. *)
Lemma each_coc_emits_one_bundle_witness :
  let coc_list := ["123450-452coc.pdf"; "QC123-456coc.pdf"] in
  let coc_tuple := ([], ["QC123-456coc.pdf"], []) in
  let stack := ["123450pg1.pdf"; "123452pg1.pdf"; "123460pg1.pdf";
                "QC123-456pg1.pdf"] in
  let bundles :=
    emitted "/a" "/c" "/p" id_order 10 coc_list coc_tuple
            {| missing_coc_list := []; pdf_stack := stack;
               report_dict := [] |} in
  NoDup (map (fun e => coc (snd e)) bundles) /\
  forall e, In e bundles ->
            (exists i, In i coc_list /\
                       coc (snd e) = coc_path "/a" "/c" "/p" coc_tuple i) /\
            fst e = report_name_of (coc (snd e)).
Proof.
  intros coc_list coc_tuple stack.
  apply (each_coc_emits_one_bundle
           "/a" "/c" "/p" id_order id_order_perm 10 coc_list coc_tuple
           [] stack []
           ["123460pg1.pdf"]
           [("123450-452.pdf",
             {| coc := "/p/123450-452coc.pdf";
                pdfs := ["123450pg1.pdf"; "123452pg1.pdf"];
                missing_pdfs := Some ["123451"] |});
            ("QC123-456.pdf",
             {| coc := "/c/QC123-456coc.pdf";
                pdfs := ["QC123-456pg1.pdf"];
                missing_pdfs := None |})]).
  reflexivity.
Defined.

(** The same call twice, the first on the empty default dictionary. *)
Lemma repeated_call_changes_nothing_witness :
  let coc_list := ["123450-452coc.pdf"; "QC123-456coc.pdf"] in
  let coc_tuple := ([], ["QC123-456coc.pdf"], []) in
  let stack := ["123450pg1.pdf"; "123452pg1.pdf"; "123460pg1.pdf";
                "QC123-456pg1.pdf"] in
  let report :=
    [("123450-452.pdf",
      {| coc := "/p/123450-452coc.pdf";
         pdfs := ["123450pg1.pdf"; "123452pg1.pdf"];
         missing_pdfs := Some ["123451"] |});
     ("QC123-456.pdf",
      {| coc := "/c/QC123-456coc.pdf";
         pdfs := ["QC123-456pg1.pdf"];
         missing_pdfs := None |})] in
  aggregator_default "/a" "/c" "/p" id_order 10 coc_list coc_tuple [] stack
                     report
  = Returned ["123460pg1.pdf"] report.
Proof.
  intros coc_list coc_tuple stack report.
  apply (repeated_call_changes_nothing
           "/a" "/c" "/p" id_order 10 coc_list coc_tuple [] stack []
           ["123460pg1.pdf"] report).
  - constructor.
  - reflexivity.
Defined.

(** Three directories, two of them with a [.DS_Store] entry. *)
Lemma gather_drops_every_ds_store_witness :
  gather [[".DS_Store"; "123456coc.pdf"]; [".DS_Store"];
          ["QC123-456coc.pdf"]]
  = List.concat (map (discard ".DS_Store")
                     [[".DS_Store"; "123456coc.pdf"]; [".DS_Store"];
                      ["QC123-456coc.pdf"]]) /\
  ~ In ".DS_Store"
       (gather [[".DS_Store"; "123456coc.pdf"]; [".DS_Store"];
                ["QC123-456coc.pdf"]]).
Proof.
  apply (gather_drops_every_ds_store
           [[".DS_Store"; "123456coc.pdf"]; [".DS_Store"];
            ["QC123-456coc.pdf"]]).
  intros l [<-|[<-|[<-|[]]]]; nodup_strings.
Defined.

(** A folder with one page beside [.DS_Store]. *)
Lemma file_check_finds_other_entries_witness :
  file_check [".DS_Store"; "123456pg1.pdf"] = true <->
  exists x, In x [".DS_Store"; "123456pg1.pdf"] /\ x <> ".DS_Store".
Proof.
  apply (file_check_finds_other_entries [".DS_Store"; "123456pg1.pdf"]).
  nodup_strings.
Defined.

(** A folder with a prefixed page, a plain page and two other files. *)
Lemma strip_chars_splits_by_grammar_witness :
  let listing := [".DS_Store"; "job_12 123456pg1.pdf"; "notes.txt";
                  "QC123-456pg1.pdf"; "job_x.pdf"] in
  let valid := ["123456pg1.pdf"; "QC123-456pg1.pdf"] in
  let bad := Some ["notes.txt"; "job_x.pdf"] in
  let dirlist := map stripped (drop_ds_store listing) in
  NoDup valid /\
  (forall n, In n valid <-> In n dirlist /\ page_name_ok n = true) /\
  (bad = None <-> forall n, In n dirlist -> page_name_ok n = true) /\
  (forall l, bad = Some l ->
             l = filter (fun n => negb (page_name_ok n)) dirlist).
Proof.
  intros listing valid bad.
  apply (strip_chars_splits_by_grammar
           id_order id_order_perm (fun _ _ => true) listing valid bad).
  reflexivity.
Defined.

(** The command for a report of two pages, every file of ten bytes. *)
Lemma collate_merges_pages_then_coc_witness :
  let b := {| coc := "/a/123456coc.pdf";
              pdfs := ["123456pg1.pdf"; "123456pg2.pdf"];
              missing_pdfs := None |} in
  let fs := (fun _ : string => Some 10%Z) : filesystem in
  exists pages,
    StronglySorted str_le pages /\
    Permutation ["123456pg2.pdf"; "123456pg1.pdf"; "123457pg1.pdf"]
                (pages ++ ["123457pg1.pdf"]) /\
    fst (collate "/revd" "/fin" fs "123456.pdf" b)
    = ["gs"; "-q"; "-dBATCH"; "-dNOPAUSE"; "-sDEVICE=pdfwrite";
       "-dAutoRotatePages=/PageByPage";
       ("-sOutputFile=" ++ Py.path_join "/fin" "123456.pdf")%string]
      ++ map (Py.path_join "/revd") pages ++ ["/a/123456coc.pdf"] /\
    (snd (collate "/revd" "/fin" fs "123456.pdf" b) = None <->
     fs "/a/123456coc.pdf" = None \/
     exists k, In k pages /\ fs (Py.path_join "/revd" k) = None).
Proof.
  intros b fs.
  apply (collate_merges_pages_then_coc
           id_order "/revd" "/fin" fs "/a/123456coc.pdf"
           ["123456pg2.pdf"; "123456pg1.pdf"; "123457pg1.pdf"]
           "123456.pdf" b ["123457pg1.pdf"]).
  reflexivity.
Defined.

(** A run of [main] on four folders: one prefixed page, one page without
    CoC and one file that is no page. *)
Lemma main_reconciles_accepted_pages_witness :
  let aus := [] in
  let corp := ["QC123-456coc.pdf"] in
  let pt := [".DS_Store"; "123450-452coc.pdf"] in
  let revd := [".DS_Store"; "job_7 123450pg1.pdf"; "123452pg1.pdf";
               "123460pg1.pdf"; "QC123-456pg1.pdf"; "readme.txt"] in
  let bad := Some ["readme.txt"] in
  let missing := ["123460pg1.pdf"] in
  let report :=
    [("123450-452.pdf",
      {| coc := "/p/123450-452coc.pdf";
         pdfs := ["123450pg1.pdf"; "123452pg1.pdf"];
         missing_pdfs := Some ["123451"] |});
     ("QC123-456.pdf",
      {| coc := "/c/QC123-456coc.pdf";
         pdfs := ["QC123-456pg1.pdf"];
         missing_pdfs := None |})] in
  file_check revd = true /\
  (forall i, In i (gather [aus; corp; pt]) -> check_one i = Pass) /\
  exists valid,
    strip_chars id_order (fun _ _ => true) revd = Some (valid, bad) /\
    NoDup (map fst report) /\
    Permutation (pages_of report ++ missing) valid /\
    NoDup (pages_of report ++ missing) /\
    (forall k, In k (pages_of report ++ missing) -> page_name_ok k = true).
Proof.
  intros aus corp pt revd bad missing report.
  apply (main_reconciles_accepted_pages
           "/a" "/c" "/p" id_order id_order_perm (fun _ _ => true) 10
           aus corp pt revd bad missing report).
  reflexivity.
Defined.
